(** * vite-plugin-image-compress: the asset compressor, embedded and verified

    A shallow embedding of [src/plugins/vite-plugin-image-compress.ts]:
    the options merge of [viteImageCompress], the path filter, the
    [generateBundle] hook with its per-asset tasks, and the report of
    [closeBundle]; with it the options of [src/vite.config.ts].  The
    external collaborators (the sharp codec, the order in which awaited
    codec calls settle, the texts that [closeBundle] formats with floating
    point arithmetic) are parameters of the model.

    The file has three parts: the model, written after the source; the
    summaries, pure functions in which the behaviour of the hook is
    expressed; and the verification, which relates the two, gives the
    theorems about the specification's claims, and goes on with further
    properties of the hooks, of the report, of file names and of the
    project's build. *)

From Stdlib Require Import ZArith NArith Ascii.
From Stdlib.Strings Require Import Byte.
From stdpp Require Import base strings list gmap sorting.

Local Open Scope Z_scope.

(** ** Strings and paths *)

Module Path.

(** [String.prototype.toLowerCase] on one code unit.  File names are kept
    as Rocq strings; none of the extensions the plugin compares against
    holds a letter that a character outside A-Z lowers to, so the ASCII
    rule decides every comparison made by the plugin. *)
Definition lower_char (c : ascii) : ascii :=
  let n := N_of_ascii c in
  if ((65 <=? n) && (n <=? 90))%N then ascii_of_N (n + 32) else c.

Fixpoint toLowerCase (s : string) : string :=
  match s with
  | EmptyString => EmptyString
  | String c rest => String (lower_char c) (toLowerCase rest)
  end.

(** State of the backwards scan of node's [path.posix.extname]. *)
Record Scan := mkScan {
  startDot : Z;
  startPart : Z;
  endAt : Z;
  matchedSlash : bool;
  preDotState : Z
}.

Definition scan0 : Scan := mkScan (-1) 0 (-1) true 0.

(** The loop [for (i = path.length - 1; i >= 0; --i)]: [n] is [i + 1].
    Leaving the recursion early is the [break]. *)
Fixpoint scan (path : string) (n : nat) (st : Scan) : Scan :=
  match n with
  | O => st
  | S i =>
    match String.get i path with
    | None => st
    | Some code =>
      if Ascii.eqb code "/" then
        if negb (matchedSlash st) then
          mkScan (startDot st) (Z.of_nat i + 1) (endAt st)
                 (matchedSlash st) (preDotState st)
        else scan path i st
      else
        let st1 :=
          if endAt st =? -1 then
            mkScan (startDot st) (startPart st) (Z.of_nat i + 1)
                   false (preDotState st)
          else st in
        let st2 :=
          if Ascii.eqb code "." then
            if startDot st1 =? -1 then
              mkScan (Z.of_nat i) (startPart st1) (endAt st1)
                     (matchedSlash st1) (preDotState st1)
            else if negb (preDotState st1 =? 1) then
              mkScan (startDot st1) (startPart st1) (endAt st1)
                     (matchedSlash st1) 1
            else st1
          else if negb (startDot st1 =? -1) then
            mkScan (startDot st1) (startPart st1) (endAt st1)
                   (matchedSlash st1) (-1)
          else st1 in
        scan path i st2
    end
  end.

(** [path.extname] (POSIX flavour: bundle keys use forward slashes). *)
Definition extname (path : string) : string :=
  let st := scan path (String.length path) scan0 in
  if (startDot st =? -1) || (endAt st =? -1) || (preDotState st =? 0)
     || ((preDotState st =? 1) && (startDot st =? endAt st - 1)
         && (startDot st =? startPart st + 1))
  then EmptyString
  else String.substring (Z.to_nat (startDot st))
                        (Z.to_nat (endAt st - startDot st)) path.

(** [s.endsWith(suffix)]. *)
Definition endsWith (s suffix : string) : bool :=
  let n := String.length s in
  let k := String.length suffix in
  (k <=? n)%nat && String.eqb (String.substring (n - k) k s) suffix.

End Path.

(** ** Buffers and JS strings *)

(** A [Buffer] (a [Uint8Array]) is its sequence of bytes. *)
Abbreviation Buffer := (list byte).

(** A JS string used as asset content: its UTF-16 code units. *)
Abbreviation JSString := (list N).

Definition byteLength (b : Buffer) : Z := Z.of_nat (length b).

Module Utf8.

Definition to_byte (n : N) : byte :=
  default Byte.x00 (Byte.of_N (n mod 256)).

Definition is_high_surrogate (u : N) : bool := ((0xD800 <=? u) && (u <=? 0xDBFF))%N.
Definition is_low_surrogate (u : N) : bool := ((0xDC00 <=? u) && (u <=? 0xDFFF))%N.

(** U+FFFD, written for a surrogate that has no partner. *)
Definition replacement : Buffer := [to_byte 0xEF; to_byte 0xBF; to_byte 0xBD].

Definition three_bytes (u : N) : Buffer :=
  [to_byte (0xE0 + u / 4096); to_byte (0x80 + (u / 64) mod 64);
   to_byte (0x80 + u mod 64)]%N.

Definition four_bytes (hi lo : N) : Buffer :=
  let cp := (0x10000 + (hi - 0xD800) * 1024 + (lo - 0xDC00))%N in
  [to_byte (0xF0 + cp / 262144); to_byte (0x80 + (cp / 4096) mod 64);
   to_byte (0x80 + (cp / 64) mod 64); to_byte (0x80 + cp mod 64)]%N.

(** [Buffer.from(s, 'utf-8')]. *)
Fixpoint encode (s : JSString) : Buffer :=
  match s with
  | [] => []
  | u :: rest =>
    if (u <? 0x80)%N then to_byte u :: encode rest
    else if (u <? 0x800)%N then
      to_byte (0xC0 + u / 64)%N :: to_byte (0x80 + u mod 64)%N :: encode rest
    else if is_high_surrogate u then
      match rest with
      | lo :: rest' =>
        if is_low_surrogate lo then four_bytes u lo ++ encode rest'
        else replacement ++ encode rest
      | [] => replacement
      end
    else if is_low_surrogate u then replacement ++ encode rest
    else three_bytes u ++ encode rest
  end.

End Utf8.

(** ** Options *)

(** An options record handed to sharp: its own enumerable keys. *)
Inductive OptValue :=
| VNum (z : Z)
| VBool (b : bool)
| VStr (s : string).

Abbreviation OptionsRecord := (list (string * OptValue)).

(** The raster kinds of the [switch] in the task. *)
Inductive Kind := Jpeg | Png | Webp | Gif | Avif.

#[global] Instance Kind_eq_dec : EqDecision Kind.
Proof. solve_decision. Defined.

(** An optional property of an object literal: the key is missing, or it is
    an own key whose value is [undefined] ([None]) or a proper value. *)
Inductive Key (A : Type) : Type :=
| Missing
| Own (v : option A).
Arguments Missing {A}.
Arguments Own {A} v.

(** Reading [obj.key]. *)
Definition read {A} (k : Key A) : option A :=
  match k with
  | Missing => None
  | Own v => v
  end.

(** One key of [{ ...under, ...over }]: an own key of [over] wins, whatever
    its value. *)
Definition spread {A} (under over : Key A) : Key A :=
  match over with
  | Missing => under
  | Own v => Own v
  end.

Record SharpCompressOptions := mkSharp {
  jpeg : Key OptionsRecord;
  png : Key OptionsRecord;
  webp : Key OptionsRecord;
  gif : Key OptionsRecord;
  avif : Key OptionsRecord
}.

Definition kind_key (o : SharpCompressOptions) (k : Kind) : Key OptionsRecord :=
  match k with
  | Jpeg => jpeg o
  | Png => png o
  | Webp => webp o
  | Gif => gif o
  | Avif => avif o
  end.

(** [{}] *)
Definition empty_sharp : SharpCompressOptions :=
  mkSharp Missing Missing Missing Missing Missing.

(** [{ ...a, ...b }] on sharp options. *)
Definition spread_sharp (a b : SharpCompressOptions) : SharpCompressOptions :=
  mkSharp (spread (jpeg a) (jpeg b)) (spread (png a) (png b))
          (spread (webp a) (webp b)) (spread (gif a) (gif b))
          (spread (avif a) (avif b)).

(** A path pattern, as the one capability the plugin uses: does it match? *)
Record Matcher := mkMatcher { test : string -> bool }.

(** [FilterPattern]: one pattern, an array of patterns, or [null]. *)
Inductive FilterPattern :=
| One (m : Matcher)
| Many (ms : list Matcher)
| Null.

Record ImageCompressOptions := mkOptions {
  include : Key FilterPattern;
  exclude : Key FilterPattern;
  sharpOptions : Key SharpCompressOptions;
  log : Key bool
}.

(** The regular expression [/\.(png|jpe?g|gif|svg|webp|avif)$/i]. *)
Definition default_include : Matcher :=
  mkMatcher (fun path =>
    existsb (Path.endsWith (Path.toLowerCase path))
            [".png"; ".jpg"; ".jpeg"; ".gif"; ".svg"; ".webp"; ".avif"]).

Definition default_sharp : SharpCompressOptions :=
  mkSharp (Own (Some [("quality", VNum 75)]))
          (Own (Some [("quality", VNum 75); ("compressionLevel", VNum 6)]))
          (Own (Some [("quality", VNum 75)]))
          (Own (Some []))
          (Own (Some [("quality", VNum 50)])).

Definition defaultOptions : ImageCompressOptions :=
  mkOptions (Own (Some (One default_include)))
            (Own None)
            (Own (Some default_sharp))
            (Own (Some true)).

(** [userOptions.sharpOptions || {}] *)
Definition or_empty (o : option SharpCompressOptions) : SharpCompressOptions :=
  match o with
  | Some s => s
  | None => empty_sharp
  end.

(** The [options] constant of [viteImageCompress]. *)
Definition merge_options (userOptions : ImageCompressOptions) : ImageCompressOptions :=
  mkOptions
    (spread (include defaultOptions) (include userOptions))
    (spread (exclude defaultOptions) (exclude userOptions))
    (Own (Some (spread_sharp (or_empty (read (sharpOptions defaultOptions)))
                             (or_empty (read (sharpOptions userOptions))))))
    (spread (log defaultOptions) (log userOptions)).

(** [options.sharpOptions?.jpeg] and its siblings. *)
Definition formatOptions (options : ImageCompressOptions) (k : Kind)
  : option OptionsRecord :=
  match read (sharpOptions options) with
  | Some s => read (kind_key s k)
  | None => None
  end.

(** [x && Object.keys(x).length > 0] *)
Definition has_keys (o : option OptionsRecord) : bool :=
  match o with
  | Some (_ :: _) => true
  | _ => false
  end.

(** [options.log] used as a condition. *)
Definition log_on (options : ImageCompressOptions) : bool :=
  match read (log options) with
  | Some b => b
  | None => false
  end.

(** ** The path filter *)

Definition ensureArray (p : option FilterPattern) : list Matcher :=
  match p with
  | Some (One m) => [m]
  | Some (Many ms) => ms
  | Some Null | None => []
  end.

(** Modelled from the spec: [createFilter] belongs to @rollup/pluginutils,
    which is not among the sources.  Section 4.1 gives its contract (a path
    passes iff it matches [include] and does not match [exclude]; the
    default exclude matches nothing); a pattern set is matched when one of
    its patterns matches, and, as the library documents, an include with no
    pattern at all lets every path through. *)
Definition createFilter (include exclude : option FilterPattern) (id : string) : bool :=
  let includeMatchers := ensureArray include in
  let excludeMatchers := ensureArray exclude in
  if existsb (fun m => test m id) excludeMatchers then false
  else if existsb (fun m => test m id) includeMatchers then true
  else bool_decide (includeMatchers = []).

(** ** The bundle, the ledger and the outside world *)

(** [assetInfo.source] as the hook meets it at run time: text, bytes, or a
    value that is neither (the hook checks for it). *)
Inductive Source :=
| SrcString (s : JSString)
| SrcBytes (b : Buffer)
| SrcOther.

(** A value of the bundle: [type] is ['chunk'] or ['asset']. *)
Inductive OutputEntry :=
| Chunk (code : JSString)
| Asset (source : Source).

Record Sizes := mkSizes { originalSize : Z; compressedSize : Z }.

Inductive LogEvent :=
| WarnUnknownSource (fileName : string)
| InfoSkipSvg (fileName : string)
| WarnStringNotSvg (fileName : string)
| InfoUnsupported (fileName : string)
| InfoNotSmaller (fileName : string) (newSize originalSize : Z)
| InfoUnchanged (fileName : string) (originalSize : Z)
| ErrorProcessing (fileName : string) (message : string).

(** Calls into sharp: [sharp(input)] and [instance.<kind>(opts).toBuffer()]. *)
Inductive CodecCall :=
| NewSharp (fileName : string) (input : Buffer)
| ToBuffer (fileName : string) (kind : Kind) (opts : OptionsRecord) (input : Buffer).

(** Everything the hook reads or writes: the bundle object, the
    [processedFiles] map, and what reached the logger and the codec.  The
    ledger is kept as the mapping from keys to sizes that [Map.get] shows;
    the order in which a JS [Map] enumerates its entries (that of their
    first insertion) is not part of the model. *)
Record World := mkWorld {
  bundle : gmap string OutputEntry;
  processedFiles : gmap string Sizes;
  logger : list LogEvent;
  codec : list CodecCall
}.

(** How an awaited [toBuffer()] promise settles. *)
Inductive Settled :=
| Resolves (b : Buffer)
| Rejects (message : string).

(** What an encoding call does: throw at once, or hand back a promise. *)
Inductive Encoding :=
| ThrowsNow (message : string)
| Promised (outcome : Settled).

(** The sharp library and the event loop, as oracles.  They are indexed by
    the file whose task makes the call, so that no relation between two
    calls is assumed. *)
Record Sharp := mkSharpLib {
  construct : string -> Buffer -> option string;
  toBuffer : string -> Kind -> OptionsRecord -> Buffer -> Encoding;
  settles : string -> nat
}.

(** ** A small monad for code that logs, mutates and throws *)

Inductive Completion (A : Type) : Type :=
| Normal (a : A)
| Thrown (message : string).
Arguments Normal {A} a.
Arguments Thrown {A} message.

Definition Js (A : Type) : Type := World -> Completion A * World.

#[global] Instance Js_ret : MRet Js := fun A a w => (Normal a, w).

#[global] Instance Js_bind : MBind Js := fun A B k m w =>
  match m w with
  | (Normal a, w1) => k a w1
  | (Thrown msg, w1) => (Thrown msg, w1)
  end.

Definition throw {A} (message : string) : Js A := fun w => (Thrown message, w).

(** [try { body } catch (error) { handler(error.message) }] *)
Definition try_catch {A} (body : Js A) (handler : string -> Js A) : Js A :=
  fun w =>
    match body w with
    | (Thrown msg, w1) => handler msg w1
    | done => done
    end.

Definition emit (e : LogEvent) : Js unit := fun w =>
  (Normal tt, mkWorld (bundle w) (processedFiles w) (logger w ++ [e]) (codec w)).

Definition called (c : CodecCall) : Js unit := fun w =>
  (Normal tt, mkWorld (bundle w) (processedFiles w) (logger w) (codec w ++ [c])).

(** [processedFiles.set(fileName, sizes)] *)
Definition ledger_set (fileName : string) (sizes : Sizes) : Js unit := fun w =>
  (Normal tt,
   mkWorld (bundle w) (<[fileName := sizes]> (processedFiles w)) (logger w) (codec w)).

(** [assetInfo.source = buffer]: [assetInfo] is the object held by the bundle
    under [fileName]. *)
Definition set_source (fileName : string) (buffer : Buffer) : Js unit := fun w =>
  (Normal tt,
   mkWorld (<[fileName := Asset (SrcBytes buffer)]> (bundle w))
           (processedFiles w) (logger w) (codec w)).

Definition when (c : bool) (m : Js unit) : Js unit := if c then m else mret tt.

(** ** The plugin *)

Record Plugin := mkPlugin {
  options : ImageCompressOptions;
  filter : string -> bool
}.

(** [viteImageCompress(userOptions)], up to the hooks it returns. *)
Definition viteImageCompress (userOptions : ImageCompressOptions) : Plugin :=
  let options := merge_options userOptions in
  mkPlugin options (createFilter (read (include options)) (read (exclude options))).

(** [viteImageCompress()]: the parameter defaults to [{}]. *)
Definition no_options : ImageCompressOptions :=
  mkOptions Missing Missing Missing Missing.

(** The state in which a freshly created plugin meets a bundle:
    [processedFiles] is [new Map()]. *)
Definition fresh (b : gmap string OutputEntry) : World := mkWorld b ∅ [] [].

(** The [case] labels of the [switch (ext)]; [None] is [default]. *)
Definition switch (ext : string) : option Kind :=
  if String.eqb ext ".jpg" then Some Jpeg
  else if String.eqb ext ".jpeg" then Some Jpeg
  else if String.eqb ext ".png" then Some Png
  else if String.eqb ext ".webp" then Some Webp
  else if String.eqb ext ".gif" then Some Gif
  else if String.eqb ext ".avif" then Some Avif
  else None.

(** [path.extname(fileName).toLowerCase()] *)
Definition ext_of (fileName : string) : string :=
  Path.toLowerCase (Path.extname fileName).

(** The first lines of the loop body: the buffer made from the source and
    the [sourceIsString] flag; [None] is the branch that skips the asset. *)
Definition read_source (source : Source) : option (Buffer * bool) :=
  match source with
  | SrcString s => Some (Utf8.encode s, true)
  | SrcBytes b => Some (b, false)
  | SrcOther => None
  end.

(** A task suspended at its [await]: the variables of its closure and the
    way the awaited promise will settle. *)
Record Awaiting := mkAwaiting {
  aw_fileName : string;
  aw_sourceBuffer : Buffer;
  aw_originalSize : Z;
  aw_formatSpecificOptions : option OptionsRecord;
  aw_promise : Settled
}.

Inductive Step :=
| Done
| Await (a : Awaiting).

(** The promise returned by [task()]. *)
Inductive Promise :=
| Fulfilled
| Rejected (message : string)
| Pending (a : Awaiting).

Section Hooks.

Variable lib : Sharp.
Variable plugin : Plugin.

Definition sharp_new (fileName : string) (input : Buffer) : Js unit :=
  called (NewSharp fileName input);;
  match construct lib fileName input with
  | Some message => throw message
  | None => mret tt
  end.

Definition sharp_toBuffer (fileName : string) (kind : Kind)
           (opts : OptionsRecord) (input : Buffer) : Js Settled :=
  called (ToBuffer fileName kind opts input);;
  match toBuffer lib fileName kind opts input with
  | ThrowsNow message => throw message
  | Promised outcome => mret outcome
  end.

(** The task from [if (!compressedBuffer)] to the end of the [try] block. *)
Definition gate (fileName : string) (sourceBuffer : Buffer) (originalSize : Z)
           (formatSpecificOptions : option OptionsRecord)
           (compressedBuffer : option Buffer) : Js unit :=
  let '(compressedBuffer, newSize) :=
    match compressedBuffer with
    | None => (sourceBuffer, originalSize)
    | Some b => (b, byteLength b)
    end in
  if newSize <? originalSize then
    set_source fileName compressedBuffer;;
    ledger_set fileName (mkSizes originalSize newSize)
  else
    (if log_on (options plugin) && (newSize >? originalSize) then
       emit (InfoNotSmaller fileName newSize originalSize)
     else if log_on (options plugin) && (newSize =? originalSize)
             && has_keys formatSpecificOptions then
       emit (InfoUnchanged fileName originalSize)
     else mret tt);;
    ledger_set fileName (mkSizes originalSize originalSize).

(** The [try] block up to the first [await]. *)
Definition task_try (fileName : string) (sourceBuffer : Buffer)
           (originalSize : Z) (ext : string) : Js Step :=
  sharp_new fileName sourceBuffer;;
  match switch ext with
  | Some kind =>
    let formatSpecificOptions := formatOptions (options plugin) kind in
    match formatSpecificOptions with
    | Some ((_ :: _) as opts) =>
      promise ← sharp_toBuffer fileName kind opts sourceBuffer;
      mret (Await (mkAwaiting fileName sourceBuffer originalSize
                              formatSpecificOptions promise))
    | _ =>
      gate fileName sourceBuffer originalSize formatSpecificOptions None;;
      mret Done
    end
  | None =>
    when (log_on (options plugin)) (emit (InfoUnsupported fileName));;
    ledger_set fileName (mkSizes originalSize originalSize);;
    mret Done
  end.

(** The [catch] block. *)
Definition task_catch (fileName : string) (originalSize : Z)
           (message : string) : Js unit :=
  emit (ErrorProcessing fileName message);;
  ledger_set fileName (mkSizes originalSize originalSize).

(** What an [async] function hands to its caller. *)
Definition async (body : Js Step) (w : World) : Promise * World :=
  match body w with
  | (Normal Done, w1) => (Fulfilled, w1)
  | (Normal (Await a), w1) => (Pending a, w1)
  | (Thrown message, w1) => (Rejected message, w1)
  end.

(** [task()], run until it returns or suspends. *)
Definition task (fileName : string) (sourceBuffer : Buffer)
           (originalSize : Z) (ext : string) : World -> Promise * World :=
  async (try_catch (task_try fileName sourceBuffer originalSize ext)
                   (fun message =>
                      task_catch fileName originalSize message;; mret Done)).

(** The rest of a suspended task, once its promise has settled. *)
Definition task_resume (a : Awaiting) : World -> Promise * World :=
  async (try_catch
           (match aw_promise a with
            | Resolves b =>
              gate (aw_fileName a) (aw_sourceBuffer a) (aw_originalSize a)
                   (aw_formatSpecificOptions a) (Some b)
            | Rejects message => throw message
            end;; mret Done)
           (fun message =>
              task_catch (aw_fileName a) (aw_originalSize a) message;;
              mret Done)).

(** One turn of [for (const [fileName, assetInfo] of assets)]; the result
    is the promise pushed on [processingPromises], if any.  [assetInfo] is
    the object the bundle holds under [fileName]. *)
Definition visit (fileName : string) (w : World) : option Promise * World :=
  match bundle w !! fileName with
  | None | Some (Chunk _) => (None, w)
  | Some (Asset source) =>
    if negb (filter plugin fileName) then (None, w)
    else
      match read_source source with
      | None => (None, snd (emit (WarnUnknownSource fileName) w))
      | Some (sourceBuffer, sourceIsString) =>
        let originalSize := byteLength sourceBuffer in
        let ext := ext_of fileName in
        if String.eqb ext ".svg" then
          (None,
           snd ((when (log_on (options plugin)) (emit (InfoSkipSvg fileName));;
                 ledger_set fileName (mkSizes originalSize originalSize)) w))
        else if sourceIsString then
          (None,
           snd ((emit (WarnStringNotSvg fileName);;
                 ledger_set fileName (mkSizes originalSize originalSize)) w))
        else
          let '(p, w1) := task fileName sourceBuffer originalSize ext w in
          (Some p, w1)
      end
  end.

Fixpoint for_of (assets : list string) (w : World) : list Promise * World :=
  match assets with
  | [] => ([], w)
  | fileName :: rest =>
    let '(p, w1) := visit fileName w in
    let '(ps, w2) := for_of rest w1 in
    (option_list p ++ ps, w2)
  end.

Definition pending (p : Promise) : option Awaiting :=
  match p with
  | Pending a => Some a
  | _ => None
  end.

(** The order in which the suspended tasks are resumed: by the instant at
    which their promise settles. *)
Definition settles_before (a b : Awaiting) : Prop :=
  (settles lib (aw_fileName a) <= settles lib (aw_fileName b))%nat.

#[local] Instance settles_before_dec : RelDecision settles_before.
Proof. intros a b. unfold settles_before. apply _. Defined.

Definition settle_order (ps : list Awaiting) : list Awaiting :=
  merge_sort settles_before ps.

Fixpoint resume_all (ps : list Awaiting) (w : World) : list Promise * World :=
  match ps with
  | [] => ([], w)
  | a :: rest =>
    let '(p, w1) := task_resume a w in
    let '(qs, w2) := resume_all rest w1 in
    (p :: qs, w2)
  end.

Definition rejection (p : Promise) : option string :=
  match p with
  | Rejected message => Some message
  | _ => None
  end.

(** [await Promise.all(promises)], all of them settled. *)
Definition promise_all (promises : list Promise) : Completion unit :=
  match omap rejection promises with
  | message :: _ => Thrown message
  | [] => Normal tt
  end.

(** The [generateBundle] hook. *)
Definition generateBundle (w : World) : Completion unit * World :=
  let assets := (map_to_list (bundle w)).*1 in
  let '(processingPromises, w1) := for_of assets w in
  let '(resumed, w2) := resume_all (settle_order (omap pending processingPromises)) w1 in
  (promise_all (processingPromises ++ resumed), w2).

End Hooks.

(** The [Status] column computed by [closeBundle] for one ledger entry. *)
Inductive Status := Skipped | Compressed | Unchanged | Failed.

Definition status (fileName : string) (sizes : Sizes) : Status :=
  let sizeChange := originalSize sizes - compressedSize sizes in
  if String.eqb (ext_of fileName) ".svg" then Skipped
  else if sizeChange >? 0 then Compressed
  else if sizeChange =? 0 then Unchanged
  else Failed.

(** The rows of the table printed by [closeBundle]. *)
Definition report (w : World) : list (string * Status) :=
  (fun row => (row.1, status row.1 row.2)) <$> map_to_list (processedFiles w).

(** * Summaries

    Pure functions and predicates in which the theorems below are stated
    and proved. *)

(** ** What one asset goes through

    The hook treats every key of the bundle on its own.  [turn] sums up the
    synchronous part of the work for one key, [finish] the part that runs
    once an awaited promise has settled. *)

Inductive Turn :=
| Passed                 (* nothing is recorded *)
| Recorded (size : Z)    (* the ledger gets (size, size) before any await *)
| Suspended (a : Awaiting).

Section Summary.

Variable lib : Sharp.
Variable plugin : Plugin.

Definition encode_turn (fileName : string) (buf : Buffer) : Turn :=
  let n := byteLength buf in
  match construct lib fileName buf with
  | Some _ => Recorded n
  | None =>
    match switch (ext_of fileName) with
    | None => Recorded n
    | Some kind =>
      match formatOptions (options plugin) kind with
      | Some ((_ :: _) as opts) =>
        match toBuffer lib fileName kind opts buf with
        | ThrowsNow _ => Recorded n
        | Promised outcome =>
          Suspended (mkAwaiting fileName buf n
                       (formatOptions (options plugin) kind) outcome)
        end
      | _ => Recorded n
      end
    end
  end.

Definition turn (fileName : string) (e : OutputEntry) : Turn :=
  match e with
  | Chunk _ => Passed
  | Asset source =>
    if filter plugin fileName then
      match read_source source with
      | None => Passed
      | Some (buf, isString) =>
        if String.eqb (ext_of fileName) ".svg" then Recorded (byteLength buf)
        else if isString then Recorded (byteLength buf)
        else encode_turn fileName buf
      end
    else Passed
  end.

(** The sizes written and the buffer stored by a resumed task. *)
Definition finish (a : Awaiting) : Sizes * option Buffer :=
  let n := aw_originalSize a in
  match aw_promise a with
  | Resolves c =>
    if byteLength c <? n then (mkSizes n (byteLength c), Some c)
    else (mkSizes n n, None)
  | Rejects _ => (mkSizes n n, None)
  end.

(** The ledger entry an asset ends with. *)
Definition ledger_entry (fileName : string) (e : OutputEntry) : option Sizes :=
  match turn fileName e with
  | Passed => None
  | Recorded n => Some (mkSizes n n)
  | Suspended a => Some (finish a).1
  end.

(** The bundle value an asset ends with. *)
Definition final_entry (fileName : string) (e : OutputEntry) : OutputEntry :=
  match turn fileName e with
  | Suspended a =>
    match (finish a).2 with
    | Some c => Asset (SrcBytes c)
    | None => e
    end
  | _ => e
  end.

Definition suspended (fileName : string) (e : OutputEntry) : option Awaiting :=
  match turn fileName e with
  | Suspended a => Some a
  | _ => None
  end.

Definition recorded (fileName : string) (e : OutputEntry) : option Sizes :=
  match turn fileName e with
  | Recorded n => Some (mkSizes n n)
  | _ => None
  end.

(** A codec call is justified by a byte asset of the bundle that passes the
    filter and is not an SVG; an encoding call moreover by a raster kind
    whose options record has keys. *)
Definition justified (b : gmap string OutputEntry) (c : CodecCall) : Prop :=
  match c with
  | NewSharp f input =>
    b !! f = Some (Asset (SrcBytes input)) /\ filter plugin f = true
    /\ ext_of f <> ".svg"
  | ToBuffer f kind opts input =>
    b !! f = Some (Asset (SrcBytes input)) /\ filter plugin f = true
    /\ ext_of f <> ".svg" /\ switch (ext_of f) = Some kind
    /\ formatOptions (options plugin) kind = Some opts /\ opts <> []
  end.

End Summary.

(** ** Definitions used by the statements and proofs *)

(** Visiting the keys [ks] in turn and storing [val k] under [k] when there
    is one. *)
Definition puts {V : Type} (val : string -> option V) (m : gmap string V)
           (ks : list string) : gmap string V :=
  foldl (fun m k => match val k with Some v => <[k := v]> m | None => m end) m ks.

(** The turn taken for the key [f] of the bundle [b]. *)
Definition turn_at (lib : Sharp) (plugin : Plugin) (b : gmap string OutputEntry)
           (f : string) : Turn :=
  from_option (turn lib plugin f) Passed (b !! f).

(** A suspended task that is the one [suspended] computes for its file. *)
Definition genuine (lib : Sharp) (plugin : Plugin) (b : gmap string OutputEntry)
           (a : Awaiting) : Prop :=
  b !! aw_fileName a ≫= suspended lib plugin (aw_fileName a) = Some a.

(** [Object.entries(bundle)], the keys. *)
Definition keys (w : World) : list string := (map_to_list (bundle w)).*1.

(** The suspended tasks, in the order in which they are resumed. *)
Definition resumed (lib : Sharp) (plugin : Plugin) (w : World) : list Awaiting :=
  settle_order lib (omap pending (for_of lib plugin (keys w) w).1).

(** The first [generateBundle] of a new plugin, on the bundle [b]: the
    ledger is empty when the hook starts.  The ledger outlives the hook, so
    what is said of later bundles is said of [generateBundle] started in an
    arbitrary state. *)
Definition batch (lib : Sharp) (userOptions : ImageCompressOptions)
           (b : gmap string OutputEntry) : Completion unit * World :=
  generateBundle lib (viteImageCompress userOptions) (fresh b).

(** The file a codec call is made for. *)
Definition file_of (c : CodecCall) : string :=
  match c with
  | NewSharp f _ => f
  | ToBuffer f _ _ _ => f
  end.

(** The buffer read from an asset's content, if it can be read. *)
Definition content_bytes (e : OutputEntry) : option Buffer :=
  match e with
  | Asset source => fst <$> read_source source
  | Chunk _ => None
  end.

(** A ledger entry that records no change. *)
Definition unchanged (buf : Buffer) : Sizes :=
  mkSizes (byteLength buf) (byteLength buf).

(** The message with which the codec fails on the bytes of an asset, if it
    does: [sharp(input)] throws, the encoding call throws, or the promise it
    returned is rejected. *)
Definition codec_failure (lib : Sharp) (plugin : Plugin) (f : string)
           (buf : Buffer) : option string :=
  match construct lib f buf with
  | Some message => Some message
  | None =>
    match switch (ext_of f) with
    | Some kind =>
      match formatOptions (options plugin) kind with
      | Some ((_ :: _) as opts) =>
        match toBuffer lib f kind opts buf with
        | ThrowsNow message | Promised (Rejects message) => Some message
        | Promised (Resolves _) => None
        end
      | _ => None
      end
    | None => None
    end
  end.

(** Two codecs that behave alike on every file but [f]. *)
Definition agree_off (f : string) (lib lib' : Sharp) : Prop :=
  forall g, g <> f ->
    (forall buf, construct lib g buf = construct lib' g buf)
    /\ (forall kind opts buf, toBuffer lib g kind opts buf = toBuffer lib' g kind opts buf).

(** An entry of the bundle that is an asset and whose key the filter lets
    through. *)
Definition candidate (plugin : Plugin) (f : string) (e : OutputEntry) : bool :=
  match e with
  | Asset _ => filter plugin f
  | Chunk _ => false
  end.

(** Its content is text or bytes. *)
Definition readable (e : OutputEntry) : bool :=
  match content_bytes e with
  | Some _ => true
  | None => false
  end.

(** A code unit below 0x80. *)
Definition ascii_unit (u : N) : Prop := (u < 0x80)%N.

(** The options record the caller supplies for a kind, if there is one. *)
Definition supplied (userOptions : ImageCompressOptions) (k : Kind)
  : option OptionsRecord :=
  s ← read (sharpOptions userOptions); read (kind_key s k).

(** The caller's key for a kind, in [userOptions.sharpOptions || {}]. *)
Definition caller_key (userOptions : ImageCompressOptions) (k : Kind)
  : Key OptionsRecord :=
  kind_key (or_empty (read (sharpOptions userOptions))) k.

Definition matches (ms : list Matcher) (path : string) : bool :=
  existsb (fun m => test m path) ms.

(** The include pattern as the claim reads it: the caller's when one is
    set, the default one otherwise. *)
Definition include_or_default (userOptions : ImageCompressOptions) : list Matcher :=
  match read (include userOptions) with
  | Some p => ensureArray (Some p)
  | None => [default_include]
  end.

(** The patterns the filter is built from. *)
Definition effective_include (userOptions : ImageCompressOptions) : list Matcher :=
  match include userOptions with
  | Missing => [default_include]
  | Own v => ensureArray v
  end.

Definition effective_exclude (userOptions : ImageCompressOptions) : list Matcher :=
  ensureArray (read (exclude userOptions)).

(** Concrete collaborators and bundles on which the theorems are run. *)
Module Examples.

Definition zeros (n : nat) : Buffer := replicate n Byte.x00.

(** A codec that hands back the first half of its input. *)
Definition halving : Sharp :=
  mkSharpLib (fun _ _ => None)
             (fun _ _ _ input => Promised (Resolves (take (length input / 2) input)))
             (fun f => String.length f).

(** A codec whose output is as long as its input. *)
Definition same_size : Sharp :=
  mkSharpLib (fun _ _ => None)
             (fun _ _ _ input => Promised (Resolves input))
             (fun _ => 0%nat).


(** A codec that fails on every file whose name starts with a [d] and
    halves the others. *)
Definition failing_on_d : Sharp :=
  mkSharpLib (fun _ _ => None)
             (fun f _ _ input =>
                if String.prefix "d" f then Promised (Rejects "CodecFailure")
                else Promised (Resolves (take (length input / 2) input)))
             (fun f => (10 - String.length f)%nat).

(** The regular expression [/\.webp$/]. *)
Definition webp_only : Matcher := mkMatcher (fun path => Path.endsWith path ".webp").

(** [{ include: /\.webp$/ }] *)
Definition include_webp : ImageCompressOptions :=
  mkOptions (Own (Some (One webp_only))) Missing Missing Missing.


(** [{ sharpOptions: { gif: { effort: 7 } } }] *)
Definition gif_on : ImageCompressOptions :=
  mkOptions Missing Missing
            (Own (Some (mkSharp Missing Missing Missing
                                (Own (Some [("effort", VNum 7)])) Missing)))
            Missing.

(** [{ sharpOptions: { jpeg: undefined } }] *)
Definition jpeg_undefined : ImageCompressOptions :=
  mkOptions Missing Missing
            (Own (Some (mkSharp (Own None) Missing Missing Missing Missing)))
            Missing.

(** [{ sharpOptions: { jpeg: r } }] *)
Definition jpeg_only (r : OptionsRecord) : ImageCompressOptions :=
  mkOptions Missing Missing
            (Own (Some (mkSharp (Own (Some r)) Missing Missing Missing Missing)))
            Missing.

(** [{ include: undefined }] *)
Definition include_undefined : ImageCompressOptions :=
  mkOptions (Own None) Missing Missing Missing.

Definition scenario : gmap string OutputEntry :=
  {[ "a.jpg" := Asset (SrcBytes (zeros 10));
     "b.png" := Asset (SrcBytes (zeros 5));
     "c.svg" := Asset (SrcString [60; 115; 118; 103; 62; 233]%N);
     "d.gif" := Asset (SrcBytes (zeros 8));
     "e.webp" := Asset (SrcBytes (zeros 4));
     "t.png" := Asset (SrcString [233]%N);
     "index.js" := Chunk [] ]}.

End Examples.

(** C2, as the claim states it: the ledger has as many entries as there are
    assets that pass the filter. *)
Definition C2_as_stated (lib : Sharp) (userOptions : ImageCompressOptions)
           (b : gmap string OutputEntry) : Prop :=
  size (processedFiles (batch lib userOptions b).2)
  = size (base.filter (fun kv => candidate (viteImageCompress userOptions) kv.1 kv.2 = true) b).


(** C6, as the claim states it: a record supplied for a kind replaces the
    default record of that kind, otherwise the default record is kept. *)
Definition C6_as_stated (userOptions : ImageCompressOptions) (k : Kind) : Prop :=
  formatOptions (options (viteImageCompress userOptions)) k
  = match supplied userOptions k with
    | Some r => Some r
    | None => formatOptions defaultOptions k
    end.

(** C7, as the claim states it. *)
Definition C7_as_stated (userOptions : ImageCompressOptions) (path : string) : Prop :=
  filter (viteImageCompress userOptions) path
  = matches (include_or_default userOptions) path
    && negb (matches (effective_exclude userOptions) path).

(** ** What reaches the codec and the logger

    The calls and the log events of one key, as pure functions: [calls_of]
    and [sync_logs] for the turn of the loop, [async_logs] for a resumed
    task. *)

Section Traces.

Variable lib : Sharp.
Variable plugin : Plugin.

Definition encode_calls (f : string) (buf : Buffer) : list CodecCall :=
  NewSharp f buf ::
  match construct lib f buf with
  | Some _ => []
  | None =>
    match switch (ext_of f) with
    | Some kind =>
      match formatOptions (options plugin) kind with
      | Some ((_ :: _) as opts) => [ToBuffer f kind opts buf]
      | _ => []
      end
    | None => []
    end
  end.

Definition calls_of (f : string) (e : OutputEntry) : list CodecCall :=
  match e with
  | Asset (SrcBytes buf) =>
    if filter plugin f && negb (String.eqb (ext_of f) ".svg")
    then encode_calls f buf else []
  | _ => []
  end.

Definition encode_logs (f : string) (buf : Buffer) : list LogEvent :=
  match construct lib f buf with
  | Some message => [ErrorProcessing f message]
  | None =>
    match switch (ext_of f) with
    | None => if log_on (options plugin) then [InfoUnsupported f] else []
    | Some kind =>
      match formatOptions (options plugin) kind with
      | Some ((_ :: _) as opts) =>
        match toBuffer lib f kind opts buf with
        | ThrowsNow message => [ErrorProcessing f message]
        | Promised _ => []
        end
      | _ => []
      end
    end
  end.

Definition sync_logs (f : string) (e : OutputEntry) : list LogEvent :=
  match e with
  | Chunk _ => []
  | Asset source =>
    if filter plugin f then
      match read_source source with
      | None => [WarnUnknownSource f]
      | Some (buf, isString) =>
        if String.eqb (ext_of f) ".svg" then
          if log_on (options plugin) then [InfoSkipSvg f] else []
        else if isString then [WarnStringNotSvg f]
        else encode_logs f buf
      end
    else []
  end.

Definition async_logs (a : Awaiting) : list LogEvent :=
  match aw_promise a with
  | Rejects message => [ErrorProcessing (aw_fileName a) message]
  | Resolves c =>
    let newSize := byteLength c in
    let n := aw_originalSize a in
    if newSize <? n then []
    else if log_on (options plugin) && (newSize >? n)
    then [InfoNotSmaller (aw_fileName a) newSize n]
    else if log_on (options plugin) && (newSize =? n)
            && has_keys (aw_formatSpecificOptions a)
    then [InfoUnchanged (aw_fileName a) n]
    else []
  end.

Definition logs_of (f : string) (e : OutputEntry) : list LogEvent :=
  sync_logs f e ++ from_option async_logs [] (suspended lib plugin f e).

End Traces.

(** Everything the task of a byte asset hands to the logger, from its
    start to its end. *)
Definition task_logs (lib : Sharp) (plugin : Plugin) (f : string) (buf : Buffer)
  : list LogEvent :=
  let n := byteLength buf in
  match construct lib f buf with
  | Some message => [ErrorProcessing f message]
  | None =>
    match switch (ext_of f) with
    | None => if log_on (options plugin) then [InfoUnsupported f] else []
    | Some kind =>
      match formatOptions (options plugin) kind with
      | Some ((_ :: _) as opts) =>
        match toBuffer lib f kind opts buf with
        | ThrowsNow message | Promised (Rejects message) =>
          [ErrorProcessing f message]
        | Promised (Resolves c) =>
          if byteLength c <? n then []
          else if negb (log_on (options plugin)) then []
          else if byteLength c >? n then [InfoNotSmaller f (byteLength c) n]
          else [InfoUnchanged f n]
        end
      | _ => []
      end
    end
  end.

(** Everything one key of the bundle hands to the logger. *)
Definition entry_logs (lib : Sharp) (plugin : Plugin) (f : string)
           (e : OutputEntry) : list LogEvent :=
  match e with
  | Chunk _ => []
  | Asset source =>
    if filter plugin f then
      match source with
      | SrcOther => [WarnUnknownSource f]
      | SrcString _ =>
        if String.eqb (ext_of f) ".svg"
        then (if log_on (options plugin) then [InfoSkipSvg f] else [])
        else [WarnStringNotSvg f]
      | SrcBytes buf =>
        if String.eqb (ext_of f) ".svg"
        then (if log_on (options plugin) then [InfoSkipSvg f] else [])
        else task_logs lib plugin f buf
      end
    else []
  end.

(** The caller's options with another [log] key. *)
Definition with_log (userOptions : ImageCompressOptions) (l : Key bool)
  : ImageCompressOptions :=
  mkOptions (include userOptions) (exclude userOptions) (sharpOptions userOptions) l.

(** An event printed through [logger.info]. *)
Definition is_info (ev : LogEvent) : bool :=
  match ev with
  | InfoSkipSvg _ | InfoUnsupported _ | InfoNotSmaller _ _ _ | InfoUnchanged _ _ => true
  | _ => false
  end.

(** [{ log: false }] *)
Definition log_off : ImageCompressOptions :=
  mkOptions Missing Missing Missing (Own (Some false)).

(** A ledger in which no entry records a size that grew. *)
Definition sound_ledger (m : gmap string Sizes) : Prop :=
  map_Forall (fun _ s => compressedSize s <= originalSize s) m.

(** ** The report of [closeBundle] *)

(** [value.replace(/\x1b\[[0-9;]*m/g, '')]: one pass over the string that
    holds back what may be the start of an escape sequence until it is
    complete (and dropped) or broken (and kept). *)
Module Ansi.

Inductive State := Outside | AfterEsc | InParams.

Definition esc : ascii := "027"%char.

(** A character of the class [[0-9;]]. *)
Definition is_param (c : ascii) : bool :=
  let n := N_of_ascii c in
  ((48 <=? n) && (n <=? 57) || (n =? 59))%N.

Fixpoint strip_from (st : State) (held : string) (s : string) : string :=
  match s with
  | EmptyString =>
    match st with
    | Outside => EmptyString
    | _ => held
    end
  | String c rest =>
    let afresh :=
      if Ascii.eqb c esc then strip_from AfterEsc (String c EmptyString) rest
      else String c (strip_from Outside EmptyString rest) in
    match st with
    | Outside => afresh
    | AfterEsc =>
      if Ascii.eqb c "[" then strip_from InParams (held +:+ String c EmptyString) rest
      else held +:+ afresh
    | InParams =>
      if is_param c then strip_from InParams (held +:+ String c EmptyString) rest
      else if Ascii.eqb c "m" then strip_from Outside EmptyString rest
      else held +:+ afresh
    end
  end.

Definition strip (s : string) : string := strip_from Outside EmptyString s.

End Ansi.

(** The texts [closeBundle] obtains from floating point arithmetic, or
    writes in colour, are given: [formatBytes], the percentage printed with
    [toFixed(1)], and the coloured text of a status.  A character of a
    string stands for one UTF-16 code unit. *)
Record Texts := mkTexts {
  formatBytes : Z -> string;
  toFixed1 : Z -> Z -> string;
  label : Status -> string
}.

(** One object of [tableData]. *)
Record TableRow := mkRow {
  col_file : string;
  col_original : string;
  col_compressed : string;
  col_savings : string;
  col_status : string
}.

Definition table_row (t : Texts) (fileName : string) (sizes : Sizes) : TableRow :=
  let sizeChange := originalSize sizes - compressedSize sizes in
  let percentage :=
    if originalSize sizes >? 0 then toFixed1 t sizeChange (originalSize sizes)
    else "0.0" in
  mkRow fileName
        (formatBytes t (originalSize sizes))
        (formatBytes t (compressedSize sizes))
        (if sizeChange >? 0
         then formatBytes t sizeChange +:+ " (" +:+ percentage +:+ "%)"
         else "-")
        (label t (status fileName sizes)).

(** [headers], each with its entry of [minWidths]. *)
Definition headers : list (string * nat) :=
  [("File", 15); ("Original Size", 15); ("Compressed Size", 17);
   ("Savings", 20); ("Status", 15)]%nat.

(** [row[header]] for the headers in turn. *)
Definition cells (r : TableRow) : list string :=
  [col_file r; col_original r; col_compressed r; col_savings r; col_status r].

(** The length of a value once the colour codes are taken out. *)
Definition displayLength (value : string) : nat :=
  String.length (Ansi.strip value).

(** [colWidths[header]] for the header of index [j]. *)
Definition colWidth (tableData : list TableRow) (j : nat) (header : string * nat) : nat :=
  foldr Nat.max
        (Nat.max (if (header.2 =? 0)%nat then 10%nat else header.2)
                 (String.length header.1))
        ((fun row => displayLength (nth j (cells row) "")) <$> tableData).

Definition colWidths (tableData : list TableRow) : list nat :=
  imap (colWidth tableData) headers.

(** [c.repeat(n)] *)
Fixpoint repeat_char (c : ascii) (n : nat) : string :=
  match n with
  | O => EmptyString
  | S m => String c (repeat_char c m)
  end.

(** [s.padEnd(n)] *)
Definition padEnd (s : string) (n : nat) : string :=
  s +:+ repeat_char " " (n - String.length s).

(** The parts of a line, [' | '] after each but the last. *)
Fixpoint join_cols (parts : list string) : string :=
  match parts with
  | [] => EmptyString
  | [part] => part
  | part :: rest => part +:+ " | " +:+ join_cols rest
  end.

Definition headerLine (widths : list nat) : string :=
  "  " +:+ join_cols (zip_with (fun h width => padEnd h.1 width) headers widths).

Definition separatorLine (widths : list nat) : string :=
  "  " +:+ join_cols (zip_with (fun _ width => repeat_char "-" width) headers widths).

Definition rowLine (widths : list nat) (row : TableRow) : string :=
  "  " +:+ join_cols
           (zip_with (fun value width =>
                        value +:+ repeat_char " " (width - displayLength value))
                     (cells row) widths).

(** What [closeBundle] prints, in order: the heading and the summary go
    through [logger.info], the lines of the table through [console.log]. *)
Inductive Printed :=
| PrintedHeading
| PrintedLine (line : string)
| PrintedSummary (totalOriginalSize totalCompressedSize : Z) (savings : option Z).

(** The [closeBundle] hook.  A JS [Map] is enumerated in the order of
    insertion, which the ledger of the model does not keep: the rows come in
    the order of the ledger's own enumeration, and no statement below
    depends on the order of the rows. *)
Definition closeBundle (t : Texts) (plugin : Plugin) (w : World) : list Printed :=
  if negb (log_on (options plugin)) || (size (processedFiles w) =? 0)%nat then []
  else
    let entries := map_to_list (processedFiles w) in
    let totalOriginalSize := foldl (fun acc kv => acc + originalSize kv.2) 0 entries in
    let totalCompressedSize := foldl (fun acc kv => acc + compressedSize kv.2) 0 entries in
    let tableData := (fun kv => table_row t kv.1 kv.2) <$> entries in
    let widths := colWidths tableData in
    let totalSavings := totalOriginalSize - totalCompressedSize in
    [PrintedHeading; PrintedLine (headerLine widths); PrintedLine (separatorLine widths)]
    ++ (PrintedLine ∘ rowLine widths <$> tableData)
    ++ [PrintedSummary totalOriginalSize totalCompressedSize
                       (if totalSavings >? 0 then Some totalSavings else None)].

(** The lines of the table among what was printed. *)
Definition printed_lines (out : list Printed) : list string :=
  omap (fun p => match p with PrintedLine l => Some l | _ => None end) out.

(** The sum of a column of sizes. *)
Definition sum_sizes (f : Sizes -> Z) (entries : list (string * Sizes)) : Z :=
  foldr (fun kv acc => f kv.2 + acc) 0 entries.

(** Texts on which the report is run in the examples: fixed sizes, and
    statuses wrapped in colour codes. *)
Definition test_texts : Texts :=
  mkTexts (fun _ => "1.5 KB") (fun _ _ => "50.0")
          (fun st => match st with
                     | Compressed => String Ansi.esc "[32mdone" +:+ String Ansi.esc "[39m"
                     | _ => String Ansi.esc "[2m-" +:+ String Ansi.esc "[22m"
                     end).

(** ** Shapes of file names *)

(** A part of a name that holds neither a dot nor a slash. *)
Fixpoint plain (s : string) : bool :=
  match s with
  | EmptyString => true
  | String c rest => negb (Ascii.eqb c ".") && negb (Ascii.eqb c "/") && plain rest
  end.

(** A string of code units below 128.  On these [toLowerCase] changes the
    letters A-Z and nothing else, which is what [Path.toLowerCase] does. *)
Fixpoint seven_bit (s : string) : bool :=
  match s with
  | EmptyString => true
  | String c rest => (N_of_ascii c <? 128)%N && seven_bit rest
  end.

(** Does the switch have a [case] for the extension? *)
Definition has_case (ext : string) : bool :=
  match switch ext with
  | Some _ => true
  | None => false
  end.

(** The state of the scan of [extname] on [pre ++ "." ++ e], [e] plain,
    once the dot has been met. *)
Definition at_dot (pre e : string) : Path.Scan :=
  Path.mkScan (Z.of_nat (String.length pre)) 0
              (Z.of_nat (String.length pre + 1 + String.length e)) false 0.

(** ** The project's configuration *)

(** Does [needle] occur in [s]? *)
Fixpoint occurs (needle s : string) : bool :=
  String.prefix needle s ||
  match s with
  | EmptyString => false
  | String _ rest => occurs needle rest
  end.

(** The regular expression [/node_modules|dist/]. *)
Definition build_dirs : Matcher :=
  mkMatcher (fun path => occurs "node_modules" path || occurs "dist" path).

(** The options [vite.config.ts] passes to [viteImageCompress]. *)
Definition project_options : ImageCompressOptions :=
  mkOptions Missing
            (Own (Some (One build_dirs)))
            (Own (Some (mkSharp
                          (Own (Some [("quality", VNum 75)]))
                          (Own (Some [("quality", VNum 75);
                                      ("compressionLevel", VNum 6)]))
                          (Own (Some [("quality", VNum 75)]))
                          (Own (Some []))
                          (Own (Some [("quality", VNum 50)])))))
            Missing.

(** * Verification *)

(** ** Maps filled key by key *)

Section Puts.

Context {V : Type}.

Lemma lookup_puts val ks (m : gmap string V) g :
  puts val m ks !! g =
  match (if decide (g ∈ ks) then val g else None) with
  | Some v => Some v
  | None => m !! g
  end.
Proof.
  revert m. induction ks as [|k ks IH]; intros m.
  - rewrite decide_False; [done|]. apply not_elem_of_nil.
  - change (puts val m (k :: ks))
      with (puts val (match val k with Some v => <[k := v]> m | None => m end) ks).
    rewrite IH.
    destruct (decide (g ∈ ks)) as [Hin|Hnin].
    + rewrite decide_True; [|by apply list_elem_of_further].
      destruct (val g) eqn:Hg; [done|].
      destruct (decide (k = g)) as [->|Hne]; [by rewrite Hg|].
      destruct (val k); [by rewrite lookup_insert_ne|done].
    + destruct (decide (k = g)) as [->|Hne].
      * rewrite decide_True; [|by apply list_elem_of_here].
        destruct (val g); [by rewrite lookup_insert_eq|done].
      * rewrite decide_False; [|rewrite elem_of_cons; intros [?|?]; [congruence|contradiction]].
        destruct (val k); [by rewrite lookup_insert_ne|done].
Qed.

Lemma puts_app val (m : gmap string V) ks1 ks2 :
  puts val m (ks1 ++ ks2) = puts val (puts val m ks1) ks2.
Proof. apply foldl_app. Qed.

End Puts.

(** ** The synchronous turn and the resumed task *)

Section Steps.

Variable lib : Sharp.
Variable plugin : Plugin.

Ltac run :=
  repeat (progress (simpl in *; unfold task, async, try_catch, task_try,
                    task_catch, sharp_new, sharp_toBuffer, gate, when, emit,
                    called, ledger_set, set_source, throw, mbind, mret,
                    Js_bind, Js_ret in *)
          || rewrite Z.ltb_irrefl in *
          || case_match || simplify_eq).

Lemma visit_bundle f w : bundle (visit lib plugin f w).2 = bundle w.
Proof. unfold visit. run; done. Qed.

Lemma visit_ledger f w :
  processedFiles (visit lib plugin f w).2 =
  match turn_at lib plugin (bundle w) f with
  | Recorded n => <[f := mkSizes n n]> (processedFiles w)
  | _ => processedFiles w
  end.
Proof.
  unfold visit, turn_at, turn, encode_turn.
  destruct (bundle w !! f) as [[?|src]|]; simpl; try done.
  destruct (filter plugin f); simpl; [|done].
  destruct src as [s|buf|]; simpl; try done.
  - destruct (String.eqb (ext_of f) ".svg"); run; done.
  - destruct (String.eqb (ext_of f) ".svg"); [run; done|].
    run; try done; try lia.
Qed.

Lemma visit_pending f w :
  (visit lib plugin f w).1 ≫= pending =
  match turn_at lib plugin (bundle w) f with
  | Suspended a => Some a
  | _ => None
  end.
Proof.
  unfold visit, turn_at, turn, encode_turn.
  destruct (bundle w !! f) as [[?|src]|]; simpl; try done.
  destruct (filter plugin f); simpl; [|done].
  destruct src as [s|buf|]; simpl; try done.
  - destruct (String.eqb (ext_of f) ".svg"); run; done.
  - destruct (String.eqb (ext_of f) ".svg"); [run; done|].
    run; done.
Qed.

Lemma visit_no_rejection f w : (visit lib plugin f w).1 ≫= rejection = None.
Proof. unfold visit. run; done. Qed.

Lemma visit_logger f w : logger w `prefix_of` logger (visit lib plugin f w).2.
Proof.
  unfold visit. run; try done;
    repeat (etrans; [|apply prefix_app_r; reflexivity]); done.
Qed.

Lemma visit_codec f w c :
  c ∈ codec (visit lib plugin f w).2 -> c ∈ codec w \/ justified plugin (bundle w) c.
Proof.
  unfold visit.
  destruct (bundle w !! f) as [[?|src]|] eqn:Hf; simpl; auto.
  destruct (filter plugin f) eqn:Hp; simpl; auto.
  destruct src as [s|buf|]; simpl; auto.
  - destruct (String.eqb (ext_of f) ".svg"); run; auto.
  - destruct (String.eqb (ext_of f) ".svg") eqn:Hsvg; [run; auto|].
    apply String.eqb_neq in Hsvg.
    run; intros H;
      repeat (match goal with
              | H : _ ∈ _ ++ _ |- _ => apply elem_of_app in H as [H|H]
              | H : _ ∈ [_] |- _ => apply list_elem_of_singleton in H; subst
              end); auto; right; simpl; auto 10.
Qed.

Lemma visit_warns f w s :
  bundle w !! f = Some (Asset (SrcString s)) ->
  filter plugin f = true ->
  ext_of f <> ".svg" ->
  WarnStringNotSvg f ∈ logger (visit lib plugin f w).2.
Proof.
  intros Hf Hp Hsvg%String.eqb_neq. unfold visit. rewrite Hf, Hp. simpl.
  rewrite Hsvg. simpl. apply elem_of_app. right. apply list_elem_of_here.
Qed.

(** ** A resumed task *)

Lemma resume_fulfilled a w : (task_resume plugin a w).1 = Fulfilled.
Proof. unfold task_resume. run; done. Qed.

Lemma resume_codec a w : codec (task_resume plugin a w).2 = codec w.
Proof. unfold task_resume. run; done. Qed.

Lemma resume_logger a w : logger w `prefix_of` logger (task_resume plugin a w).2.
Proof.
  unfold task_resume. run; try done;
    repeat (etrans; [|apply prefix_app_r; reflexivity]); done.
Qed.

Lemma resume_ledger a w :
  processedFiles (task_resume plugin a w).2 =
  <[aw_fileName a := (finish a).1]> (processedFiles w).
Proof. unfold task_resume, finish. run; done. Qed.

Lemma resume_bundle a w :
  bundle (task_resume plugin a w).2 =
  match (finish a).2 with
  | Some c => <[aw_fileName a := Asset (SrcBytes c)]> (bundle w)
  | None => bundle w
  end.
Proof. unfold task_resume, finish. run; done. Qed.

End Steps.

(** ** The loop and the join *)

Section Batch.

Variable lib : Sharp.
Variable plugin : Plugin.

Lemma for_of_cons f ks w :
  for_of lib plugin (f :: ks) w =
  (option_list (visit lib plugin f w).1 ++ (for_of lib plugin ks (visit lib plugin f w).2).1,
   (for_of lib plugin ks (visit lib plugin f w).2).2).
Proof.
  simpl. destruct (visit lib plugin f w) as [p w1]. simpl.
  by destruct (for_of lib plugin ks w1).
Qed.

Lemma for_of_bundle ks w : bundle (for_of lib plugin ks w).2 = bundle w.
Proof.
  revert w. induction ks as [|f ks IH]; intros w; [done|].
  rewrite for_of_cons. simpl. by rewrite IH, visit_bundle.
Qed.

Lemma for_of_ledger ks w :
  processedFiles (for_of lib plugin ks w).2 =
  puts (fun f => bundle w !! f ≫= recorded lib plugin f) (processedFiles w) ks.
Proof.
  revert w. induction ks as [|f ks IH]; intros w; [done|].
  rewrite for_of_cons. simpl. rewrite IH, visit_bundle, visit_ledger.
  unfold turn_at, recorded.
  destruct (bundle w !! f) as [e|]; simpl; [|done].
  by destruct (turn lib plugin f e).
Qed.

Lemma for_of_pending ks w :
  omap pending (for_of lib plugin ks w).1 =
  omap (fun f => bundle w !! f ≫= suspended lib plugin f) ks.
Proof.
  revert w. induction ks as [|f ks IH]; intros w; [done|].
  rewrite for_of_cons. simpl. rewrite omap_app, IH, visit_bundle.
  pose proof (visit_pending lib plugin f w) as Hp.
  unfold turn_at, suspended in *.
  destruct (visit lib plugin f w).1 as [p|]; simpl in *.
  - rewrite Hp. destruct (bundle w !! f) as [e|]; simpl; [|done].
    by destruct (turn lib plugin f e).
  - destruct (bundle w !! f) as [e|]; simpl in *; [|done].
    by destruct (turn lib plugin f e).
Qed.

Lemma for_of_no_rejection ks w : omap rejection (for_of lib plugin ks w).1 = [].
Proof.
  revert w. induction ks as [|f ks IH]; intros w; [done|].
  rewrite for_of_cons. simpl. rewrite omap_app, IH, app_nil_r.
  pose proof (visit_no_rejection lib plugin f w) as Hp.
  destruct (visit lib plugin f w).1 as [p|]; simpl in *; [by rewrite Hp|done].
Qed.

Lemma for_of_logger ks w : logger w `prefix_of` logger (for_of lib plugin ks w).2.
Proof.
  revert w. induction ks as [|f ks IH]; intros w; [done|].
  rewrite for_of_cons. simpl. etrans; [apply (visit_logger lib plugin f)|apply IH].
Qed.

Lemma for_of_codec ks w c :
  c ∈ codec (for_of lib plugin ks w).2 -> c ∈ codec w \/ justified plugin (bundle w) c.
Proof.
  revert w. induction ks as [|f ks IH]; intros w; [by left|].
  rewrite for_of_cons. simpl. intros [H|H]%IH.
  - by apply visit_codec in H.
  - right. by rewrite visit_bundle in H.
Qed.

Lemma resume_all_cons a ps w :
  resume_all plugin (a :: ps) w =
  ((task_resume plugin a w).1 :: (resume_all plugin ps (task_resume plugin a w).2).1,
   (resume_all plugin ps (task_resume plugin a w).2).2).
Proof.
  simpl. destruct (task_resume plugin a w) as [p w1]. simpl.
  by destruct (resume_all plugin ps w1).
Qed.

Lemma resume_all_no_rejection ps w : omap rejection (resume_all plugin ps w).1 = [].
Proof.
  revert w. induction ps as [|a ps IH]; intros w; [done|].
  rewrite resume_all_cons. simpl. by rewrite resume_fulfilled, IH.
Qed.

Lemma resume_all_codec ps w : codec (resume_all plugin ps w).2 = codec w.
Proof.
  revert w. induction ps as [|a ps IH]; intros w; [done|].
  rewrite resume_all_cons. simpl. by rewrite IH, resume_codec.
Qed.

Lemma resume_all_logger ps w : logger w `prefix_of` logger (resume_all plugin ps w).2.
Proof.
  revert w. induction ps as [|a ps IH]; intros w; [done|].
  rewrite resume_all_cons. simpl. etrans; [apply (resume_logger plugin a)|apply IH].
Qed.

Lemma resume_all_ledger b ps w :
  Forall (genuine lib plugin b) ps ->
  processedFiles (resume_all plugin ps w).2 =
  puts (fun f => a ← b !! f ≫= suspended lib plugin f; Some (finish a).1)
       (processedFiles w) (aw_fileName <$> ps).
Proof.
  revert w. induction ps as [|a ps IH]; intros w Hps; [done|].
  apply Forall_cons in Hps as [Ha Hps].
  rewrite resume_all_cons. simpl. rewrite IH, resume_ledger by done.
  unfold genuine in Ha. by rewrite Ha.
Qed.

Lemma resume_all_bundle b ps w :
  Forall (genuine lib plugin b) ps ->
  bundle (resume_all plugin ps w).2 =
  puts (fun f => a ← b !! f ≫= suspended lib plugin f;
                 c ← (finish a).2; Some (Asset (SrcBytes c)))
       (bundle w) (aw_fileName <$> ps).
Proof.
  revert w. induction ps as [|a ps IH]; intros w Hps; [done|].
  apply Forall_cons in Hps as [Ha Hps].
  rewrite resume_all_cons. simpl. rewrite IH, resume_bundle by done.
  unfold genuine in Ha. rewrite Ha. simpl. by destruct (finish a).2.
Qed.

Lemma suspended_name f e a : suspended lib plugin f e = Some a -> aw_fileName a = f.
Proof.
  unfold suspended, turn, encode_turn.
  repeat case_match; intros; simplify_eq; done.
Qed.

Lemma settle_order_genuine b ks :
  Forall (genuine lib plugin b)
         (settle_order lib (omap (fun f => b !! f ≫= suspended lib plugin f) ks)).
Proof.
  apply Forall_forall. intros a Ha.
  unfold settle_order in Ha. rewrite merge_sort_Permutation in Ha.
  apply list_elem_of_omap in Ha as (f & _ & Hf).
  unfold genuine. destruct (b !! f) as [e|] eqn:He; simpl in Hf; [|done].
  rewrite (suspended_name _ _ _ Hf). by rewrite He.
Qed.

End Batch.

(** ** The hook as a whole *)

Section Hook.

Variable lib : Sharp.
Variable plugin : Plugin.

Lemma generateBundle_eq w :
  generateBundle lib plugin w =
  (promise_all ((for_of lib plugin (keys w) w).1
                ++ (resume_all plugin (resumed lib plugin w) (for_of lib plugin (keys w) w).2).1),
   (resume_all plugin (resumed lib plugin w) (for_of lib plugin (keys w) w).2).2).
Proof.
  unfold generateBundle, resumed, keys.
  destruct (for_of lib plugin _ w) as [ps w1]. simpl.
  by destruct (resume_all plugin _ w1).
Qed.

Lemma elem_of_keys w g : g ∈ keys w <-> is_Some (bundle w !! g).
Proof.
  unfold keys. rewrite list_elem_of_fmap. split.
  - intros ([k e] & -> & H%elem_of_map_to_list). simpl. eauto.
  - intros [e He]. exists (g, e). split; [done|]. by apply elem_of_map_to_list.
Qed.

Lemma resumed_eq w :
  resumed lib plugin w =
  settle_order lib
    (omap (fun f => bundle w !! f ≫= suspended lib plugin f) (keys w)).
Proof. unfold resumed. by rewrite for_of_pending. Qed.

Lemma elem_of_resumed w g :
  g ∈ aw_fileName <$> resumed lib plugin w <->
  is_Some (bundle w !! g ≫= suspended lib plugin g).
Proof.
  rewrite resumed_eq, list_elem_of_fmap. unfold settle_order. split.
  - intros (a & -> & Ha). rewrite merge_sort_Permutation in Ha.
    apply list_elem_of_omap in Ha as (f & _ & Hf).
    destruct (bundle w !! f) as [e|] eqn:He; simpl in Hf; [|done].
    rewrite (suspended_name _ _ _ _ _ Hf), He. simpl. eauto.
  - intros [a Ha]. exists a.
    destruct (bundle w !! g) as [e|] eqn:He; simpl in Ha; [|done].
    split; [by rewrite (suspended_name _ _ _ _ _ Ha)|].
    rewrite merge_sort_Permutation. apply list_elem_of_omap.
    exists g. split; [apply elem_of_keys; eauto|]. by rewrite He.
Qed.

Lemma guard_id {A} (P : Prop) `{Decision P} (v : option A) :
  (is_Some v -> P) -> (if decide P then v else None) = v.
Proof.
  intros HP. case_decide; [done|]. destruct v; [|done].
  exfalso. eauto.
Qed.

(** The batch cannot fail: every promise handed to [Promise.all] is
    fulfilled. *)
Theorem generateBundle_completes w : (generateBundle lib plugin w).1 = Normal tt.
Proof.
  rewrite generateBundle_eq. simpl. unfold promise_all.
  by rewrite omap_app, for_of_no_rejection, resume_all_no_rejection.
Qed.

(** The ledger after the batch, key by key. *)
Theorem generateBundle_ledger w g :
  processedFiles (generateBundle lib plugin w).2 !! g =
  match bundle w !! g ≫= ledger_entry lib plugin g with
  | Some s => Some s
  | None => processedFiles w !! g
  end.
Proof.
  rewrite generateBundle_eq. simpl.
  rewrite (resume_all_ledger lib plugin (bundle w)); last first.
  { rewrite resumed_eq. apply settle_order_genuine. }
  rewrite lookup_puts, for_of_ledger, lookup_puts.
  rewrite guard_id; last first.
  { intros [s Hs]. apply elem_of_resumed.
    destruct (bundle w !! g ≫= suspended lib plugin g); [eauto|done]. }
  rewrite guard_id; last first.
  { intros [s Hs]. apply elem_of_keys.
    destruct (bundle w !! g); [eauto|done]. }
  unfold ledger_entry, suspended, recorded.
  destruct (bundle w !! g) as [e|]; simpl; [|done].
  by destruct (turn lib plugin g e).
Qed.

(** The bundle after the batch, key by key. *)
Theorem generateBundle_bundle w g :
  bundle (generateBundle lib plugin w).2 !! g = final_entry lib plugin g <$> bundle w !! g.
Proof.
  rewrite generateBundle_eq. simpl.
  rewrite (resume_all_bundle lib plugin (bundle w)); last first.
  { rewrite resumed_eq. apply settle_order_genuine. }
  rewrite lookup_puts, for_of_bundle.
  rewrite guard_id; last first.
  { intros [s Hs]. apply elem_of_resumed.
    destruct (bundle w !! g ≫= suspended lib plugin g); [eauto|done]. }
  unfold final_entry, suspended.
  destruct (bundle w !! g) as [e|]; simpl; [|done].
  destruct (turn lib plugin g e); simpl; try done.
  by destruct (finish a).2.
Qed.

(** Every call that reached the codec is accounted for. *)
Theorem generateBundle_codec w c :
  c ∈ codec (generateBundle lib plugin w).2 ->
  c ∈ codec w \/ justified plugin (bundle w) c.
Proof.
  rewrite generateBundle_eq. simpl. rewrite resume_all_codec.
  apply for_of_codec.
Qed.

Lemma for_of_warns ks w f s :
  f ∈ ks ->
  bundle w !! f = Some (Asset (SrcString s)) ->
  filter plugin f = true ->
  ext_of f <> ".svg" ->
  WarnStringNotSvg f ∈ logger (for_of lib plugin ks w).2.
Proof.
  intros Hin Hf Hp Hsvg. revert w Hf.
  induction ks as [|k ks IH]; intros w Hf; [by apply elem_of_nil in Hin|].
  rewrite for_of_cons. simpl.
  apply elem_of_cons in Hin as [->|Hin].
  - eapply elem_of_prefix; [|apply for_of_logger].
    by eapply visit_warns.
  - apply IH; [done|]. by rewrite visit_bundle.
Qed.

(** Text under a name that is not an SVG's is reported to the logger. *)
Theorem generateBundle_warns w f s :
  bundle w !! f = Some (Asset (SrcString s)) ->
  filter plugin f = true ->
  ext_of f <> ".svg" ->
  WarnStringNotSvg f ∈ logger (generateBundle lib plugin w).2.
Proof.
  intros Hf Hp Hsvg. rewrite generateBundle_eq. simpl.
  eapply elem_of_prefix; [|apply resume_all_logger].
  eapply for_of_warns; eauto. apply elem_of_keys. eauto.
Qed.

End Hook.

(** ** Facts about single assets *)

Section Facts.

Variable lib : Sharp.
Variable plugin : Plugin.

Lemma switch_not_svg ext kind : switch ext = Some kind -> String.eqb ext ".svg" = false.
Proof.
  intros H. destruct (String.eqb ext ".svg") eqn:E; [|done].
  apply String.eqb_eq in E. subst. discriminate.
Qed.

Lemma eqb_svg_false ext : ext <> ".svg" -> String.eqb ext ".svg" = false.
Proof. by intros ?%String.eqb_neq. Qed.

(** A task suspends only for bytes that pass the filter, under a raster
    extension whose options have keys, when the encoding call hands back a
    promise. *)
Lemma turn_suspended_inv f e a :
  turn lib plugin f e = Suspended a ->
  exists buf kind opts outcome,
    e = Asset (SrcBytes buf) /\ filter plugin f = true
    /\ switch (ext_of f) = Some kind
    /\ formatOptions (options plugin) kind = Some opts /\ opts <> []
    /\ construct lib f buf = None
    /\ toBuffer lib f kind opts buf = Promised outcome
    /\ a = mkAwaiting f buf (byteLength buf) (Some opts) outcome.
Proof.
  unfold turn, encode_turn. intros H.
  repeat case_match; simplify_eq/=.
  destruct source; simplify_eq/=.
  eexists _, _, _, _. repeat split; eauto.
Qed.

Lemma turn_svg f source :
  filter plugin f = true -> ext_of f = ".svg" ->
  turn lib plugin f (Asset source) =
  from_option (fun p => Recorded (byteLength p.1)) Passed (read_source source).
Proof.
  intros Hp Hext. unfold turn. rewrite Hp, Hext. simpl.
  by destruct (read_source source) as [[]|].
Qed.

Lemma turn_text f s :
  filter plugin f = true ->
  turn lib plugin f (Asset (SrcString s)) = Recorded (byteLength (Utf8.encode s)).
Proof.
  intros Hp. unfold turn. rewrite Hp. simpl.
  by destruct (String.eqb (ext_of f) ".svg").
Qed.

Lemma turn_bytes f buf :
  filter plugin f = true -> ext_of f <> ".svg" ->
  turn lib plugin f (Asset (SrcBytes buf)) = encode_turn lib plugin f buf.
Proof.
  intros Hp Hext. unfold turn. rewrite Hp. simpl.
  by rewrite eqb_svg_false.
Qed.

Lemma turn_promised f original kind opts outcome :
  filter plugin f = true ->
  switch (ext_of f) = Some kind ->
  construct lib f original = None ->
  formatOptions (options plugin) kind = Some opts ->
  opts <> [] ->
  toBuffer lib f kind opts original = Promised outcome ->
  turn lib plugin f (Asset (SrcBytes original)) =
  Suspended (mkAwaiting f original (byteLength original) (Some opts) outcome).
Proof.
  intros Hp Hk Hc Ho Hne He. unfold turn, encode_turn. rewrite Hp. simpl.
  rewrite (switch_not_svg _ _ Hk), Hc, Hk, Ho.
  destruct opts as [|o opts]; [done|]. by rewrite He.
Qed.

Lemma turn_failure f buf message :
  filter plugin f = true -> ext_of f <> ".svg" ->
  codec_failure lib plugin f buf = Some message ->
  ledger_entry lib plugin f (Asset (SrcBytes buf)) = Some (unchanged buf)
  /\ final_entry lib plugin f (Asset (SrcBytes buf)) = Asset (SrcBytes buf).
Proof.
  intros Hp Hext. unfold ledger_entry, final_entry.
  rewrite turn_bytes by done. unfold codec_failure, encode_turn, finish.
  repeat case_match; intros; simplify_eq/=; done.
Qed.


Lemma turn_agree lib' f g e :
  agree_off f lib lib' -> g <> f ->
  turn lib plugin g e = turn lib' plugin g e.
Proof.
  intros Hag Hne. destruct (Hag g Hne) as [Hc Ht].
  unfold turn. destruct e as [|source]; [done|].
  destruct (filter plugin g); [|done].
  destruct (read_source source) as [[buf isString]|]; [|done].
  destruct (String.eqb (ext_of g) ".svg"); [done|].
  destruct isString; [done|].
  unfold encode_turn. rewrite Hc.
  destruct (construct lib' g buf); [done|].
  destruct (switch (ext_of g)) as [kind|]; [|done].
  destruct (formatOptions (options plugin) kind) as [[|o opts]|]; try done.
  by rewrite Ht.
Qed.

(** What the bundle holds in the end: the value it held, or a strictly
    smaller buffer that the codec produced for that very asset. *)
Lemma final_entry_cases f e :
  final_entry lib plugin f e = e
  \/ exists buf c kind opts,
      e = Asset (SrcBytes buf)
      /\ final_entry lib plugin f e = Asset (SrcBytes c)
      /\ toBuffer lib f kind opts buf = Promised (Resolves c)
      /\ byteLength c < byteLength buf.
Proof.
  unfold final_entry. destruct (turn lib plugin f e) as [|n|a] eqn:Ht; auto.
  apply turn_suspended_inv in Ht
    as (buf & kind & opts & outcome & -> & _ & _ & _ & _ & _ & Hto & ->).
  unfold finish. simpl. destruct outcome as [c|msg]; simpl; auto.
  destruct (byteLength c <? byteLength buf) eqn:Hlt; simpl; auto.
  right. exists buf, c, kind, opts. repeat split; auto. lia.
Qed.

End Facts.

(** ** One batch of a freshly created plugin *)

Section BatchFacts.

Variable lib : Sharp.
Variable userOptions : ImageCompressOptions.
Variable b : gmap string OutputEntry.

Let plugin := viteImageCompress userOptions.
Let after := (batch lib userOptions b).2.

Lemma batch_ledger g :
  processedFiles after !! g = b !! g ≫= ledger_entry lib plugin g.
Proof.
  unfold after, batch. rewrite generateBundle_ledger. simpl.
  by destruct (b !! g ≫= _).
Qed.

Lemma batch_bundle g :
  bundle after !! g = final_entry lib plugin g <$> b !! g.
Proof. unfold after, batch. by rewrite generateBundle_bundle. Qed.

Lemma batch_codec c : c ∈ codec after -> justified plugin b c.
Proof.
  unfold after, batch. intros [H|H]%generateBundle_codec; [|done].
  by apply elem_of_nil in H.
Qed.

Lemma batch_warns f s :
  b !! f = Some (Asset (SrcString s)) ->
  filter plugin f = true ->
  ext_of f <> ".svg" ->
  WarnStringNotSvg f ∈ logger after.
Proof. intros. unfold after, batch. by eapply generateBundle_warns. Qed.

Lemma batch_completes : (batch lib userOptions b).1 = Normal tt.
Proof. apply generateBundle_completes. Qed.

End BatchFacts.

(** ** Sizes of text *)

Section Utf8Length.

Import Utf8.

Lemma encode_ascii s : Forall ascii_unit s -> length (encode s) = length s.
Proof.
  induction 1 as [|u rest Hu _ IH]; [done|].
  unfold ascii_unit in Hu. apply N.ltb_lt in Hu. simpl. rewrite Hu. simpl.
  by rewrite IH.
Qed.

(** A string never takes fewer bytes than it has code units, and as many
    only if every unit is ASCII. *)
Lemma encode_length_bound n s :
  (length s <= n)%nat ->
  (length s <= length (encode s))%nat
  /\ (length (encode s) = length s -> Forall ascii_unit s).
Proof.
  revert s. induction n as [n IH] using lt_wf_ind. intros s Hn.
  destruct s as [|u rest]; [by split|].
  simpl in Hn.
  destruct (IH (length rest) ltac:(lia) rest ltac:(lia)) as [Hle Heq].
  simpl encode.
  destruct (u <? 0x80)%N eqn:H1.
  { simpl. split; [lia|]. intros [= E]. constructor; [|by apply Heq].
    by apply N.ltb_lt. }
  destruct (u <? 0x800)%N eqn:H2.
  { simpl. split; lia. }
  destruct (is_high_surrogate u).
  { destruct rest as [|lo rest']; [simpl; split; lia|].
    destruct (is_low_surrogate lo).
    - destruct (IH (length rest') ltac:(simpl in *; lia) rest' ltac:(lia))
        as [Hle' _].
      rewrite ?length_app. simpl in *. split; lia.
    - rewrite ?length_app. simpl in *. split; lia. }
  destruct (is_low_surrogate u); rewrite ?length_app; simpl in *; split; lia.
Qed.

Lemma encode_length_ge s : (length s <= length (encode s))%nat.
Proof. by apply (encode_length_bound (length s)). Qed.

Lemma encode_length_eq s :
  length (encode s) = length s <-> Forall ascii_unit s.
Proof.
  split; [by apply (encode_length_bound (length s))|apply encode_ascii].
Qed.

End Utf8Length.

(** ** Counting, merging, filtering *)

Lemma ledger_entry_is_Some lib plugin f e :
  is_Some (ledger_entry lib plugin f e) <->
  candidate plugin f e = true /\ readable e = true.
Proof.
  unfold ledger_entry, turn, encode_turn, candidate, readable, content_bytes.
  destruct e as [|source]; simpl.
  { split; [by intros [? ?]|by intros [? _]]. }
  destruct (filter plugin f); simpl; [|split; [by intros [? ?]|by intros [? _]]].
  destruct (read_source source) as [[buf isString]|]; simpl;
    [|split; [by intros [? ?]|by intros [_ ?]]].
  split; [done|intros _]. repeat case_match; simplify_eq; by eexists.
Qed.

Lemma batch_ledger_is_Some lib userOptions (b : gmap string OutputEntry) g :
  is_Some (processedFiles (batch lib userOptions b).2 !! g) <->
  exists e, b !! g = Some e /\ candidate (viteImageCompress userOptions) g e = true
            /\ readable e = true.
Proof.
  rewrite batch_ledger. destruct (b !! g) as [e|]; simpl.
  - rewrite ledger_entry_is_Some. split; [by exists e|].
    by intros (e' & [= <-] & H).
  - split; [by intros [? ?]|by intros (? & ? & _)].
Qed.

Lemma matches_true ms path :
  matches ms path = true <-> exists m, m ∈ ms /\ test m path = true.
Proof.
  unfold matches. rewrite existsb_exists. split.
  - intros (m & Hin%list_elem_of_In & Hm). eauto.
  - intros (m & Hin%list_elem_of_In & Hm). eauto.
Qed.

Lemma matches_false ms path :
  matches ms path = false <-> forall m, m ∈ ms -> test m path = false.
Proof.
  rewrite <- not_true_iff_false, matches_true. split.
  - intros H m Hin. destruct (test m path) eqn:E; [|done]. destruct H; eauto.
  - intros H (m & Hin & Hm). rewrite H in Hm; done.
Qed.

Lemma filter_eq userOptions path :
  filter (viteImageCompress userOptions) path
  = if matches (effective_exclude userOptions) path then false
    else if matches (effective_include userOptions) path then true
    else bool_decide (effective_include userOptions = []).
Proof.
  unfold viteImageCompress, effective_include, effective_exclude. simpl.
  unfold createFilter, matches.
  destruct (include userOptions), (exclude userOptions); reflexivity.
Qed.

(** What a ledger entry says about sizes and about the bundle. *)
Lemma batch_entry_bounds lib userOptions (b : gmap string OutputEntry) g s :
  processedFiles (batch lib userOptions b).2 !! g = Some s ->
  compressedSize s <= originalSize s
  /\ (compressedSize s < originalSize s <->
      bundle (batch lib userOptions b).2 !! g <> b !! g).
Proof.
  rewrite batch_ledger, batch_bundle.
  destruct (b !! g) as [e|]; simpl; [|done].
  unfold ledger_entry, final_entry. intros Hs.
  destruct (turn lib (viteImageCompress userOptions) g e) as [|n|a] eqn:Ht.
  - done.
  - injection Hs as <-. simpl. split; [lia|]. split; [lia|done].
  - apply turn_suspended_inv in Ht
      as (buf & kind & opts & outcome & -> & _ & _ & _ & _ & _ & _ & ->).
    revert Hs. unfold finish. simpl.
    destruct outcome as [c|msg]; simpl.
    + destruct (Z.ltb_spec (byteLength c) (byteLength buf)); simpl;
        intros [= <-]; simpl.
      * split; [lia|]. split; [|done]. intros _ [= E]. rewrite E in *. lia.
      * split; [lia|]. split; [lia|done].
    + intros [= <-]. simpl. split; [lia|]. split; [lia|done].
Qed.

Lemma status_not_failed g s :
  compressedSize s <= originalSize s -> status g s <> Failed.
Proof.
  intros Hle. unfold status. destruct (String.eqb (ext_of g) ".svg"); [done|].
  destruct (Z.gtb_spec (originalSize s - compressedSize s) 0); [done|].
  destruct (Z.eqb_spec (originalSize s - compressedSize s) 0); [done|lia].
Qed.

(** The instants at which the awaited promises settle have no bearing on
    the ledger or on the bundle. *)
Lemma settling_order_is_irrelevant lib instants userOptions
      (b : gmap string OutputEntry) g :
  let lib' := mkSharpLib (construct lib) (toBuffer lib) instants in
  processedFiles (batch lib' userOptions b).2 !! g
  = processedFiles (batch lib userOptions b).2 !! g
  /\ bundle (batch lib' userOptions b).2 !! g
     = bundle (batch lib userOptions b).2 !! g.
Proof. intros lib'. by rewrite !batch_ledger, !batch_bundle. Qed.

(** Scenario E of the specification: an encoder output as long as the
    original is not stored, and the ledger keeps the original size. *)
Example scenario_E :
  let after := (batch Examples.same_size no_options Examples.scenario).2 in
  bundle after !! "e.webp" = Some (Asset (SrcBytes (Examples.zeros 4)))
  /\ processedFiles after !! "e.webp" = Some (mkSizes 4 4)
  /\ ToBuffer "e.webp" Webp [("quality", VNum 75)] (Examples.zeros 4) ∈ codec after.
Proof.
  repeat split; try (vm_compute; reflexivity).
  vm_compute. repeat (first [apply list_elem_of_here | apply list_elem_of_further]).
Qed.

(** ** The traces, exactly *)

Section TraceSteps.

Variable lib : Sharp.
Variable plugin : Plugin.

Ltac step :=
  repeat (progress (simpl in *; unfold task, async, try_catch, task_try,
                    task_catch, sharp_new, sharp_toBuffer, gate, when, emit,
                    called, ledger_set, set_source, throw, mbind, mret,
                    Js_bind, Js_ret in *)
          || rewrite Z.ltb_irrefl in *
          || rewrite Z.gtb_ltb in *
          || rewrite andb_false_r in *
          || case_match || simplify_eq).

Ltac tidy := rewrite <- ?app_assoc, ?app_nil_r; try done.

Lemma visit_codec_eq f w :
  codec (visit lib plugin f w).2
  = codec w ++ from_option (calls_of lib plugin f) [] (bundle w !! f).
Proof.
  unfold visit, calls_of, encode_calls.
  destruct (bundle w !! f) as [[?|src]|]; simpl; tidy.
  destruct (filter plugin f); simpl; [|destruct src; tidy].
  destruct src as [s|buf|]; simpl; tidy.
  - destruct (String.eqb (ext_of f) ".svg"); step; tidy.
  - destruct (String.eqb (ext_of f) ".svg"); [step; tidy|].
    step; tidy.
Qed.

Lemma visit_logger_eq f w :
  logger (visit lib plugin f w).2
  = logger w ++ from_option (sync_logs lib plugin f) [] (bundle w !! f).
Proof.
  unfold visit, sync_logs, encode_logs.
  destruct (bundle w !! f) as [[?|src]|]; simpl; tidy.
  destruct (filter plugin f); simpl; [|tidy].
  destruct src as [s|buf|]; simpl; tidy.
  - destruct (String.eqb (ext_of f) ".svg"); step; tidy.
  - destruct (String.eqb (ext_of f) ".svg"); [step; tidy|].
    step; tidy.
Qed.

Lemma resume_logger_eq a w :
  logger (task_resume plugin a w).2 = logger w ++ async_logs plugin a.
Proof. unfold task_resume, async_logs. step; tidy. Qed.

Lemma for_of_codec_eq ks w :
  codec (for_of lib plugin ks w).2
  = codec w ++ (ks ≫= fun f => from_option (calls_of lib plugin f) [] (bundle w !! f)).
Proof.
  revert w. induction ks as [|f ks IH]; intros w; [by rewrite app_nil_r|].
  rewrite for_of_cons. simpl.
  by rewrite IH, visit_bundle, visit_codec_eq, <- app_assoc.
Qed.

Lemma for_of_logger_eq ks w :
  logger (for_of lib plugin ks w).2
  = logger w ++ (ks ≫= fun f => from_option (sync_logs lib plugin f) [] (bundle w !! f)).
Proof.
  revert w. induction ks as [|f ks IH]; intros w; [by rewrite app_nil_r|].
  rewrite for_of_cons. simpl.
  by rewrite IH, visit_bundle, visit_logger_eq, <- app_assoc.
Qed.

Lemma resume_all_logger_eq ps w :
  logger (resume_all plugin ps w).2 = logger w ++ (ps ≫= async_logs plugin).
Proof.
  revert w. induction ps as [|a ps IH]; intros w; [by rewrite app_nil_r|].
  rewrite resume_all_cons. simpl.
  by rewrite IH, resume_logger_eq, <- app_assoc.
Qed.

End TraceSteps.

Section TraceFacts.

Variable lib : Sharp.
Variable userOptions : ImageCompressOptions.
Variable b : gmap string OutputEntry.

Let plugin := viteImageCompress userOptions.
Let after := (batch lib userOptions b).2.

Lemma batch_codec_eq :
  codec after
  = keys (fresh b) ≫= fun f => from_option (calls_of lib plugin f) [] (b !! f).
Proof.
  unfold after, batch. rewrite generateBundle_eq. simpl.
  by rewrite resume_all_codec, for_of_codec_eq.
Qed.

Lemma calls_of_file f e c : c ∈ calls_of lib plugin f e -> file_of c = f.
Proof.
  unfold calls_of, encode_calls. intros Hin.
  repeat case_match;
    repeat (apply elem_of_cons in Hin as [->|Hin]; [done|]);
    by apply elem_of_nil in Hin.
Qed.

Lemma calls_of_NoDup f e : NoDup (calls_of lib plugin f e).
Proof.
  unfold calls_of, encode_calls. repeat case_match; try apply NoDup_nil_2.
  all: try apply NoDup_singleton.
  apply NoDup_cons. split; [|apply NoDup_singleton].
  by intros ?%list_elem_of_singleton.
Qed.

Lemma batch_codec_elem c :
  c ∈ codec after <-> exists f e, b !! f = Some e /\ c ∈ calls_of lib plugin f e.
Proof.
  rewrite batch_codec_eq, list_elem_of_bind. split.
  - intros (f & Hc & _). destruct (b !! f) as [e|] eqn:He; simpl in Hc.
    + by exists f, e.
    + by apply elem_of_nil in Hc.
  - intros (f & e & He & Hc). exists f. rewrite He. split; [done|].
    apply elem_of_keys. simpl. eauto.
Qed.

Lemma batch_codec_NoDup : NoDup (codec after).
Proof.
  rewrite batch_codec_eq. apply NoDup_bind.
  - intros f1 f2 c _ _ H1 H2.
    destruct (b !! f1) as [e1|]; simpl in H1; [|by apply elem_of_nil in H1].
    destruct (b !! f2) as [e2|]; simpl in H2; [|by apply elem_of_nil in H2].
    apply calls_of_file in H1, H2. congruence.
  - intros f _. destruct (b !! f); simpl; [apply calls_of_NoDup|apply NoDup_nil_2].
  - apply NoDup_fst_map_to_list.
Qed.

Lemma batch_logger_elem ev :
  ev ∈ logger after <-> exists f e, b !! f = Some e /\ ev ∈ logs_of lib plugin f e.
Proof.
  unfold after, batch. rewrite generateBundle_eq. simpl.
  rewrite resume_all_logger_eq, for_of_logger_eq. simpl.
  rewrite elem_of_app, !list_elem_of_bind. unfold logs_of. split.
  - intros [(f & Hev & _)|(a & Hev & Ha)].
    + destruct (b !! f) as [e|] eqn:He; simpl in Hev; [|by apply elem_of_nil in Hev].
      exists f, e. split; [done|]. apply elem_of_app. by left.
    + rewrite resumed_eq in Ha. unfold settle_order in Ha.
      rewrite merge_sort_Permutation in Ha.
      apply list_elem_of_omap in Ha as (f & _ & Hf). simpl in Hf.
      destruct (b !! f) as [e|] eqn:He; simpl in Hf; [|done].
      exists f, e. split; [done|]. apply elem_of_app. right.
      fold plugin in Hf. by rewrite Hf.
  - intros (f & e & He & [Hev|Hev]%elem_of_app).
    + left. exists f. simpl. rewrite He. split; [done|].
      apply elem_of_keys. simpl. eauto.
    + right. destruct (suspended lib plugin f e) as [a|] eqn:Ha; simpl in Hev;
        [|by apply elem_of_nil in Hev].
      exists a. split; [done|]. rewrite resumed_eq. unfold settle_order.
      rewrite merge_sort_Permutation. apply list_elem_of_omap.
      exists f. split; [apply elem_of_keys; simpl; eauto|].
      simpl. rewrite He. simpl. exact Ha.
Qed.

End TraceFacts.

(** ** The log of one asset *)

Section LogFacts.

Variable lib : Sharp.
Variable plugin : Plugin.

Lemma logs_of_bytes f buf :
  filter plugin f = true -> ext_of f <> ".svg" ->
  logs_of lib plugin f (Asset (SrcBytes buf)) = task_logs lib plugin f buf.
Proof.
  intros Hp Hext%eqb_svg_false.
  unfold logs_of, sync_logs, suspended, turn, encode_turn, encode_logs,
    async_logs, task_logs.
  rewrite Hp. simpl. rewrite Hext.
  destruct (construct lib f buf); [done|].
  destruct (switch (ext_of f)) as [kind|]; [|by rewrite app_nil_r].
  destruct (formatOptions (options plugin) kind) as [[|o opts]|]; try done.
  destruct (toBuffer lib f kind (o :: opts) buf) as [m|[c|m]]; simpl; try done.
  destruct (Z.ltb_spec (byteLength c) (byteLength buf)); [done|].
  destruct (log_on (options plugin)); simpl; [|done].
  destruct (Z.gtb_spec (byteLength c) (byteLength buf)); [done|].
  destruct (Z.eqb_spec (byteLength c) (byteLength buf)); [done|lia].
Qed.

Lemma logs_of_eq f e : logs_of lib plugin f e = entry_logs lib plugin f e.
Proof.
  destruct e as [|[s|buf|]]; unfold entry_logs.
  - done.
  - unfold logs_of, sync_logs, suspended, turn. simpl.
    destruct (filter plugin f); [|done].
    destruct (String.eqb (ext_of f) ".svg"); [|done].
    by destruct (log_on (options plugin)).
  - destruct (filter plugin f) eqn:Hp.
    + destruct (String.eqb (ext_of f) ".svg") eqn:Hext.
      * unfold logs_of, sync_logs, suspended, turn. simpl. rewrite Hp, Hext.
        by destruct (log_on (options plugin)).
      * apply logs_of_bytes; [done|]. by apply String.eqb_neq.
    + unfold logs_of, sync_logs, suspended, turn. simpl. by rewrite Hp.
  - unfold logs_of, sync_logs, suspended, turn. simpl.
    by destruct (filter plugin f).
Qed.

End LogFacts.

Lemma batch_logger_entry lib userOptions (b : gmap string OutputEntry) ev :
  ev ∈ logger (batch lib userOptions b).2 <->
  exists f e, b !! f = Some e
              /\ ev ∈ entry_logs lib (viteImageCompress userOptions) f e.
Proof.
  rewrite batch_logger_elem. by setoid_rewrite logs_of_eq.
Qed.

Ltac members H :=
  repeat (apply elem_of_cons in H as [H|H]);
  try (by apply elem_of_nil in H); simplify_eq.

(** * The claims *)

(** C1. A raster asset that passes the filter and for which the encoder
    produced candidate bytes: its content is replaced by the candidate
    exactly when the candidate is strictly shorter than the original;
    otherwise the original content stays and the ledger records
    finalSize = originalSize.  Nothing else ever changes in the bundle:
    every key holds what it held, or a strictly shorter buffer the codec
    produced for it. *)
Theorem C1_replacement_is_size_gated
        lib userOptions (b : gmap string OutputEntry) f original kind opts candidate :
  let plugin := viteImageCompress userOptions in
  let after := (batch lib userOptions b).2 in
  b !! f = Some (Asset (SrcBytes original)) ->
  filter plugin f = true ->
  switch (ext_of f) = Some kind ->
  construct lib f original = None ->
  formatOptions (options plugin) kind = Some opts ->
  opts <> [] ->
  toBuffer lib f kind opts original = Promised (Resolves candidate) ->
  (byteLength candidate < byteLength original ->
     bundle after !! f = Some (Asset (SrcBytes candidate))
     /\ processedFiles after !! f
        = Some (mkSizes (byteLength original) (byteLength candidate)))
  /\ (byteLength original <= byteLength candidate ->
        bundle after !! f = Some (Asset (SrcBytes original))
        /\ processedFiles after !! f = Some (unchanged original))
  /\ (bundle after !! f <> b !! f <-> byteLength candidate < byteLength original)
  /\ (forall g,
        bundle after !! g = b !! g
        \/ exists buf c k o,
            b !! g = Some (Asset (SrcBytes buf))
            /\ bundle after !! g = Some (Asset (SrcBytes c))
            /\ toBuffer lib g k o buf = Promised (Resolves c)
            /\ byteLength c < byteLength buf).
Proof.
  intros plugin after Hf Hp Hk Hc Ho Hne He.
  assert (Ht : turn lib plugin f (Asset (SrcBytes original)) =
               Suspended (mkAwaiting f original (byteLength original)
                                     (Some opts) (Resolves candidate))).
  { by apply turn_promised with kind. }
  assert (Hb : bundle after !! f =
               Some (if byteLength candidate <? byteLength original
                     then Asset (SrcBytes candidate)
                     else Asset (SrcBytes original))).
  { unfold after. rewrite batch_bundle, Hf. simpl.
    unfold final_entry. fold plugin. rewrite Ht. unfold finish. simpl.
    by destruct (byteLength candidate <? byteLength original). }
  assert (Hl : processedFiles after !! f =
               Some (if byteLength candidate <? byteLength original
                     then mkSizes (byteLength original) (byteLength candidate)
                     else unchanged original)).
  { unfold after. rewrite batch_ledger, Hf. simpl.
    unfold ledger_entry. fold plugin. rewrite Ht. unfold finish. simpl.
    by destruct (byteLength candidate <? byteLength original). }
  repeat split.
  - rewrite Hb. by destruct (Z.ltb_spec (byteLength candidate) (byteLength original)); [|lia].
  - rewrite Hl. by destruct (Z.ltb_spec (byteLength candidate) (byteLength original)); [|lia].
  - rewrite Hb. by destruct (Z.ltb_spec (byteLength candidate) (byteLength original)); [lia|].
  - rewrite Hl. by destruct (Z.ltb_spec (byteLength candidate) (byteLength original)); [lia|].
  - rewrite Hb, Hf.
    destruct (Z.ltb_spec (byteLength candidate) (byteLength original)); [done|].
    intros Hx. by destruct Hx.
  - intros Hlt. rewrite Hb, Hf. apply Z.ltb_lt in Hlt as Hlt'. rewrite Hlt'.
    intros [= Heq]. rewrite Heq in Hlt. lia.
  - intros g. unfold after. rewrite batch_bundle.
    destruct (b !! g) as [e|] eqn:Hg; simpl; [|by left].
    destruct (final_entry_cases lib (viteImageCompress userOptions) g e)
      as [->|(buf & c & k & o & -> & -> & Hto & Hlt)]; [by left|].
    right. by exists buf, c, k, o.
Qed.

(** Scenario A in small: ten bytes of a.jpg, halved by the codec, are
    replaced by the five bytes and the ledger says (10, 5). *)
Lemma C1_witness :
  let after := (batch Examples.halving no_options Examples.scenario).2 in
  bundle after !! "a.jpg" = Some (Asset (SrcBytes (Examples.zeros 5)))
  /\ processedFiles after !! "a.jpg" = Some (mkSizes 10 5).
Proof.
  refine (proj1 (C1_replacement_is_size_gated
            Examples.halving no_options Examples.scenario "a.jpg"
            (Examples.zeros 10) Jpeg [("quality", VNum 75)] (Examples.zeros 5)
            _ _ _ _ _ _ _) _); try (vm_compute; reflexivity); discriminate.
Defined.

(** C2 fails on an asset that passes the filter and whose content is neither
    text nor bytes: the hook warns and moves on without a ledger entry. *)
Lemma C2_counterexample :
  let b : gmap string OutputEntry := {[ "a.png" := Asset SrcOther ]} in
  candidate (viteImageCompress no_options) "a.png" (Asset SrcOther) = true
  /\ processedFiles (batch Examples.halving no_options b).2 = ∅
  /\ logger (batch Examples.halving no_options b).2 = [WarnUnknownSource "a.png"]
  /\ ~ C2_as_stated Examples.halving no_options b.
Proof.
  repeat split; try (vm_compute; reflexivity).
  unfold C2_as_stated. vm_compute. discriminate.
Qed.

(** C2, amended. The entries the hook writes in a batch are one for each
    key under which the bundle holds an asset that passes the filter and
    whose content is text or bytes, whatever happened to its task, and no
    other: none for chunks, for assets the filter rejects or for content of
    another type.  The ledger belongs to the plugin and is never cleared,
    so what it held before the batch stays under every key the batch does
    not write, and after the batch its keys are the assets just described
    together with the keys it held before.  When the ledger was empty before
    the batch, as for the first bundle of a plugin, it has exactly as many
    entries as there are such assets. *)
Theorem C2_one_entry_per_readable_candidate lib userOptions (w : World) :
  let plugin := viteImageCompress userOptions in
  let after := (generateBundle lib plugin w).2 in
  let written := base.filter (fun kv => candidate plugin kv.1 kv.2 = true
                                        /\ readable kv.2 = true) (bundle w) in
  (forall g, is_Some (written !! g) <->
             exists e, bundle w !! g = Some e /\ candidate plugin g e = true
                       /\ readable e = true)
  /\ (forall g, is_Some (written !! g) -> is_Some (processedFiles after !! g))
  /\ (forall g, written !! g = None ->
                processedFiles after !! g = processedFiles w !! g)
  /\ dom (processedFiles after) = dom written ∪ dom (processedFiles w)
  /\ (processedFiles w = ∅ -> size (processedFiles after) = size written).
Proof.
  intros plugin after written.
  assert (Hw : forall g, is_Some (written !! g) <->
                         exists e, bundle w !! g = Some e
                                   /\ candidate plugin g e = true
                                   /\ readable e = true).
  { intros g. unfold written. split.
    - intros [e (He & Hc)%map_lookup_filter_Some]. by exists e.
    - intros (e & He & Hc). exists e. by apply map_lookup_filter_Some. }
  assert (Hl : forall g, is_Some (written !! g) <->
                         is_Some (bundle w !! g ≫= ledger_entry lib plugin g)).
  { intros g. rewrite Hw. destruct (bundle w !! g) as [e|]; simpl.
    - rewrite ledger_entry_is_Some. split; [by intros (e' & [= <-] & H)|].
      intros H. by exists e.
    - split; [by intros (? & ? & _)|by intros [? ?]]. }
  assert (Hin : forall g, is_Some (written !! g) ->
                          is_Some (processedFiles after !! g)).
  { intros g [s Hs]%Hl. unfold after. rewrite generateBundle_ledger, Hs. eauto. }
  assert (Hout : forall g, written !! g = None ->
                           processedFiles after !! g = processedFiles w !! g).
  { intros g Hg. unfold after. rewrite generateBundle_ledger.
    destruct (bundle w !! g ≫= ledger_entry lib plugin g) as [s|] eqn:Hs; [|done].
    assert (is_Some (written !! g)) as [? ?] by (apply Hl; eauto). congruence. }
  assert (Hdom : dom (processedFiles after) = dom written ∪ dom (processedFiles w)).
  { apply set_eq. intros g. rewrite elem_of_union, !elem_of_dom.
    destruct (written !! g) as [e|] eqn:Hg.
    - split; [by left; eauto|]. intros _. apply Hin. eauto.
    - rewrite (Hout g Hg). split; [by right|]. by intros [[? ?]|]. }
  split; [exact Hw|]. split; [exact Hin|]. split; [exact Hout|].
  split; [exact Hdom|].
  intros Hempty.
  rewrite <- (size_dom (D := gset string) (processedFiles after)), Hdom.
  rewrite Hempty, dom_empty_L, (right_id_L ∅ (∪)).
  apply size_dom.
Qed.

(** C3. A codec failure on one asset stays inside that asset's task: the
    ledger gets an entry with finalSize = originalSize, the content is left
    as it was, the batch completes, and what the other assets end with is
    what they would end with had the codec behaved in any other way on the
    failing file. *)
Theorem C3_codec_failure_is_contained
        lib userOptions (b : gmap string OutputEntry) f original message :
  let plugin := viteImageCompress userOptions in
  let after := (batch lib userOptions b).2 in
  b !! f = Some (Asset (SrcBytes original)) ->
  filter plugin f = true ->
  ext_of f <> ".svg" ->
  codec_failure lib plugin f original = Some message ->
  (batch lib userOptions b).1 = Normal tt
  /\ processedFiles after !! f = Some (unchanged original)
  /\ bundle after !! f = Some (Asset (SrcBytes original))
  /\ (forall lib' g,
        agree_off f lib lib' -> g <> f ->
        (batch lib' userOptions b).1 = Normal tt
        /\ processedFiles (batch lib' userOptions b).2 !! g = processedFiles after !! g
        /\ bundle (batch lib' userOptions b).2 !! g = bundle after !! g).
Proof.
  intros plugin after Hf Hp Hext Hfail.
  destruct (turn_failure lib plugin f original message Hp Hext Hfail) as [Hl Hb].
  split; [apply batch_completes|].
  split; [unfold after; rewrite batch_ledger, Hf; exact Hl|].
  split; [unfold after; rewrite batch_bundle, Hf; simpl; f_equal; exact Hb|].
  intros lib' g Hag Hne.
  split; [apply batch_completes|].
  unfold after. rewrite !batch_ledger, !batch_bundle.
  destruct (b !! g) as [e|]; simpl; [|done].
  unfold ledger_entry, final_entry.
  by rewrite (turn_agree lib (viteImageCompress userOptions) lib' f g e Hag Hne).
Qed.

(** Scenario D: the codec rejects d.gif; the batch completes and d.gif is
    recorded unchanged. *)
Lemma C3_witness :
  let run := batch Examples.failing_on_d Examples.gif_on Examples.scenario in
  run.1 = Normal tt
  /\ processedFiles run.2 !! "d.gif" = Some (mkSizes 8 8)
  /\ bundle run.2 !! "d.gif" = Some (Asset (SrcBytes (Examples.zeros 8))).
Proof.
  assert (Hf : Examples.scenario !! "d.gif"
               = Some (Asset (SrcBytes (Examples.zeros 8))))
    by (vm_compute; reflexivity).
  assert (Hp : filter (viteImageCompress Examples.gif_on) "d.gif" = true)
    by (vm_compute; reflexivity).
  assert (Hext : ext_of "d.gif" <> ".svg") by (vm_compute; discriminate).
  assert (Hfail : codec_failure Examples.failing_on_d
                    (viteImageCompress Examples.gif_on) "d.gif"
                    (Examples.zeros 8) = Some "CodecFailure")
    by (vm_compute; reflexivity).
  pose proof (C3_codec_failure_is_contained _ _ _ _ _ _ Hf Hp Hext Hfail)
    as (H1 & H2 & H3 & _).
  exact (conj H1 (conj H2 H3)).
Defined.

(** C4. An asset that passes the filter and whose extension is .svg: no
    call at all reaches the codec for it, its content is what it was, and
    the ledger records originalSize = finalSize, the byte length of that
    content (no entry when the content is neither text nor bytes, the case
    the hook skips before it looks at the extension). *)
Theorem C4_svg_passes_through
        lib userOptions (b : gmap string OutputEntry) f source :
  let plugin := viteImageCompress userOptions in
  let after := (batch lib userOptions b).2 in
  b !! f = Some (Asset source) ->
  filter plugin f = true ->
  ext_of f = ".svg" ->
  (forall c, c ∈ codec after -> file_of c <> f)
  /\ bundle after !! f = Some (Asset source)
  /\ processedFiles after !! f = unchanged <$> content_bytes (Asset source)
  /\ (forall s, processedFiles after !! f = Some s -> compressedSize s = originalSize s).
Proof.
  intros plugin after Hf Hp Hext.
  assert (Hl : processedFiles after !! f = unchanged <$> content_bytes (Asset source)).
  { unfold after. rewrite batch_ledger, Hf. simpl. unfold ledger_entry.
    rewrite (turn_svg lib (viteImageCompress userOptions) f source Hp Hext).
    by destruct (read_source source) as [[]|]. }
  repeat split.
  - intros c Hc%batch_codec <-.
    destruct c; simpl in *; [destruct Hc as (_ & _ & Hn)|destruct Hc as (_ & _ & Hn & _)];
      by apply Hn.
  - unfold after. rewrite batch_bundle, Hf. simpl. unfold final_entry.
    rewrite (turn_svg lib (viteImageCompress userOptions) f source Hp Hext).
    by destruct (read_source source) as [[]|].
  - exact Hl.
  - intros s. rewrite Hl. simpl.
    destruct (read_source source) as [[]|]; simpl; [|done]. by intros [= <-].
Qed.

(** Scenario C: c.svg, seven bytes of text, is recorded as (7, 7). *)
Lemma C4_witness :
  let after := (batch Examples.halving no_options Examples.scenario).2 in
  bundle after !! "c.svg" = Some (Asset (SrcString [60; 115; 118; 103; 62; 233]%N))
  /\ processedFiles after !! "c.svg" = Some (mkSizes 7 7).
Proof.
  assert (Hf : Examples.scenario !! "c.svg"
               = Some (Asset (SrcString [60; 115; 118; 103; 62; 233]%N)))
    by (vm_compute; reflexivity).
  assert (Hp : filter (viteImageCompress no_options) "c.svg" = true)
    by (vm_compute; reflexivity).
  assert (Hext : ext_of "c.svg" = ".svg") by (vm_compute; reflexivity).
  pose proof (C4_svg_passes_through Examples.halving _ _ _ _ Hf Hp Hext)
    as (_ & H2 & H3 & _).
  exact (conj H2 H3).
Defined.




(** C6 fails when the caller writes a kind's key with the value
    [undefined]: no record is supplied, yet the default is not kept. *)
Lemma C6_counterexample :
  supplied Examples.jpeg_undefined Jpeg = None
  /\ formatOptions defaultOptions Jpeg = Some [("quality", VNum 75)]
  /\ formatOptions (options (viteImageCompress Examples.jpeg_undefined)) Jpeg = None
  /\ ~ C6_as_stated Examples.jpeg_undefined Jpeg.
Proof. repeat split. unfold C6_as_stated. vm_compute. discriminate. Qed.

(** C6, amended. The merge goes kind by kind: where the caller's
    sharpOptions has the key of a kind, the value under that key (a record,
    or undefined) takes the place of the default record of that kind; where
    the key is missing the default record stays.  The caller never replaces
    the mapping wholesale: with only a jpeg record supplied, the png default
    {quality: 75, compressionLevel: 6} remains in effect. *)
Theorem C6_options_merge_per_kind userOptions k :
  formatOptions (options (viteImageCompress userOptions)) k
  = match caller_key userOptions k with
    | Own v => v
    | Missing => formatOptions defaultOptions k
    end
  /\ (forall r, supplied userOptions k = Some r ->
                formatOptions (options (viteImageCompress userOptions)) k = Some r)
  /\ (forall r,
        formatOptions (options (viteImageCompress (Examples.jpeg_only r))) Jpeg = Some r
        /\ formatOptions (options (viteImageCompress (Examples.jpeg_only r))) Png
           = Some [("quality", VNum 75); ("compressionLevel", VNum 6)]).
Proof.
  assert (H : formatOptions (options (viteImageCompress userOptions)) k
              = match caller_key userOptions k with
                | Own v => v
                | Missing => formatOptions defaultOptions k
                end).
  { unfold formatOptions, caller_key. simpl.
    destruct (read (sharpOptions userOptions)) as [s|];
      destruct k; simpl; try reflexivity; by case_match. }
  split; [exact H|]. split; [|done].
  intros r Hr. rewrite H. unfold supplied, caller_key in *.
  destruct (read (sharpOptions userOptions)) as [s|]; simpl in *; [|done].
  destruct (kind_key s k); simpl in *; congruence.
Qed.

(** C7 fails when the caller writes the include key with the value
    [undefined]: the default pattern is not used, the filter is built
    without any include pattern and lets a text file through, which then
    shows up in the ledger. *)
Lemma C7_counterexample :
  filter (viteImageCompress Examples.include_undefined) "notes.txt" = true
  /\ test default_include "notes.txt" = false
  /\ is_Some (processedFiles
                (batch Examples.halving Examples.include_undefined
                       {[ "notes.txt" := Asset (SrcBytes (Examples.zeros 3)) ]}).2
              !! "notes.txt")
  /\ ~ C7_as_stated Examples.include_undefined "notes.txt".
Proof.
  repeat split.
  - vm_compute. by eexists.
  - unfold C7_as_stated. vm_compute. discriminate.
Qed.

(** C7, amended. A path is a candidate iff it matches one of the include
    patterns the filter was built from, or there is none, and it matches no
    exclude pattern; when the caller's options have no include key the
    default extension pattern is the include pattern; and with include =
    /\.webp$/ a bundle holding f.webp and g.jpg leaves a ledger with no key
    but f.webp. *)
Theorem C7_filter_include_and_not_exclude userOptions path :
  (filter (viteImageCompress userOptions) path = true <->
     (effective_include userOptions = []
      \/ exists m, m ∈ effective_include userOptions /\ test m path = true)
     /\ (forall m, m ∈ effective_exclude userOptions -> test m path = false))
  /\ (include userOptions = Missing ->
      (filter (viteImageCompress userOptions) path = true <->
         test default_include path = true
         /\ (forall m, m ∈ effective_exclude userOptions -> test m path = false)))
  /\ (forall lib source1 source2 g,
        let b : gmap string OutputEntry :=
          {[ "f.webp" := Asset source1; "g.jpg" := Asset source2 ]} in
        let after := (batch lib Examples.include_webp b).2 in
        (is_Some (processedFiles after !! g) -> g = "f.webp")
        /\ (source1 <> SrcOther -> is_Some (processedFiles after !! "f.webp"))).
Proof.
  assert (H : filter (viteImageCompress userOptions) path = true <->
     (effective_include userOptions = []
      \/ exists m, m ∈ effective_include userOptions /\ test m path = true)
     /\ (forall m, m ∈ effective_exclude userOptions -> test m path = false)).
  { rewrite filter_eq, <- matches_false, <- matches_true.
    destruct (matches (effective_exclude userOptions) path).
    { split; [done|by intros [_ ?]]. }
    destruct (matches (effective_include userOptions) path).
    { split; [auto|done]. }
    rewrite bool_decide_eq_true. split; [auto|by intros [[?|?] _]]. }
  split; [exact H|]. split.
  - intros Hinc. rewrite H. unfold effective_include. rewrite Hinc.
    split.
    + intros [[?|(m & ->%list_elem_of_singleton & Hm)] He]; done.
    + intros [Hm He]. split; [|done]. right. exists default_include.
      split; [apply list_elem_of_here|done].
  - intros lib source1 source2 g b after.
    unfold after. rewrite !batch_ledger_is_Some. split.
    + intros (e & He & Hc & _).
      destruct (decide (g = "f.webp")) as [|Hne]; [done|exfalso].
      unfold b in He. rewrite lookup_insert_ne in He by done.
      apply lookup_singleton_Some in He as [<- <-]. by vm_compute in Hc.
    + intros Hs. exists (Asset source1). repeat split.
      by destruct source1.
Qed.

(** C8. An asset that passes the filter with text for content under an
    extension other than .svg: nothing reaches the codec for it, a warning
    is handed to the logger, the ledger records finalSize = originalSize and
    the content is what it was. *)
Theorem C8_text_is_skipped_with_a_warning
        lib userOptions (b : gmap string OutputEntry) f s :
  let plugin := viteImageCompress userOptions in
  let after := (batch lib userOptions b).2 in
  b !! f = Some (Asset (SrcString s)) ->
  filter plugin f = true ->
  ext_of f <> ".svg" ->
  (forall c, c ∈ codec after -> file_of c <> f)
  /\ WarnStringNotSvg f ∈ logger after
  /\ processedFiles after !! f = Some (unchanged (Utf8.encode s))
  /\ bundle after !! f = Some (Asset (SrcString s)).
Proof.
  intros plugin after Hf Hp Hext. repeat split.
  - intros c Hc%batch_codec <-.
    destruct c; simpl in *; destruct Hc as (Hb & _); congruence.
  - by apply batch_warns with s.
  - unfold after. rewrite batch_ledger, Hf. simpl. unfold ledger_entry.
    by rewrite turn_text.
  - unfold after. rewrite batch_bundle, Hf. simpl. unfold final_entry.
    by rewrite turn_text.
Qed.

(** t.png holds text: a warning, and the two bytes of its encoding on both
    sides of the ledger entry. *)
Lemma C8_witness :
  let after := (batch Examples.halving no_options Examples.scenario).2 in
  WarnStringNotSvg "t.png" ∈ logger after
  /\ processedFiles after !! "t.png" = Some (mkSizes 2 2)
  /\ bundle after !! "t.png" = Some (Asset (SrcString [233%N])).
Proof.
  assert (Hf : Examples.scenario !! "t.png" = Some (Asset (SrcString [233%N])))
    by (vm_compute; reflexivity).
  assert (Hp : filter (viteImageCompress no_options) "t.png" = true)
    by (vm_compute; reflexivity).
  assert (Hext : ext_of "t.png" <> ".svg") by (vm_compute; discriminate).
  pose proof (C8_text_is_skipped_with_a_warning Examples.halving _ _ _ _ Hf Hp Hext)
    as (_ & H2 & H3 & H4).
  exact (conj H2 (conj H3 H4)).
Defined.

(** C9. Every ledger entry has finalSize <= originalSize, strictly so
    exactly when the content held by the bundle under that key has been
    replaced; hence no row of the report takes the branch kept for a size
    that grew. *)
Theorem C9_final_size_never_exceeds_original
        lib userOptions (b : gmap string OutputEntry) g s :
  let after := (batch lib userOptions b).2 in
  processedFiles after !! g = Some s ->
  compressedSize s <= originalSize s
  /\ (compressedSize s < originalSize s <-> bundle after !! g <> b !! g)
  /\ status g s <> Failed
  /\ Forall (fun row => row.2 <> Failed) (report after).
Proof.
  intros after Hs.
  destruct (batch_entry_bounds lib userOptions b g s Hs) as [Hle Hiff].
  repeat split; try done; try apply Hiff.
  - by apply status_not_failed.
  - unfold report. apply Forall_fmap, Forall_forall.
    intros [h sz] Hin%elem_of_map_to_list. simpl.
    apply status_not_failed.
    by destruct (batch_entry_bounds lib userOptions b h sz Hin).
Qed.

(** The entry of a.jpg after the halving codec. *)
Lemma C9_witness :
  let after := (batch Examples.halving no_options Examples.scenario).2 in
  5 <= 10
  /\ (5 < 10 <-> bundle after !! "a.jpg" <> Examples.scenario !! "a.jpg")
  /\ status "a.jpg" (mkSizes 10 5) <> Failed
  /\ Forall (fun row => row.2 <> Failed) (report after).
Proof.
  assert (Hs : processedFiles
                 (batch Examples.halving no_options Examples.scenario).2 !! "a.jpg"
               = Some (mkSizes 10 5))
    by (vm_compute; reflexivity).
  exact (C9_final_size_never_exceeds_original _ _ _ _ _ Hs).
Defined.

(** C10. For content that arrives as a string the sizes in the ledger are
    the byte length of its UTF-8 encoding, which is at least the number of
    code units and equal to it only for pure ASCII; and whatever entry the
    ledger holds, originalSize is the byte length of the buffer read from
    the content and finalSize the byte length of the content the bundle
    ends with. *)
Theorem C10_sizes_are_byte_lengths
        lib userOptions (b : gmap string OutputEntry) f s :
  let plugin := viteImageCompress userOptions in
  let after := (batch lib userOptions b).2 in
  b !! f = Some (Asset (SrcString s)) ->
  filter plugin f = true ->
  processedFiles after !! f
  = Some (mkSizes (Z.of_nat (length (Utf8.encode s)))
                  (Z.of_nat (length (Utf8.encode s))))
  /\ (length s <= length (Utf8.encode s))%nat
  /\ (length (Utf8.encode s) = length s <-> Forall ascii_unit s)
  /\ (forall g e sz,
        b !! g = Some e ->
        processedFiles after !! g = Some sz ->
        exists buf e' buf',
          content_bytes e = Some buf
          /\ originalSize sz = byteLength buf
          /\ bundle after !! g = Some e'
          /\ content_bytes e' = Some buf'
          /\ compressedSize sz = byteLength buf').
Proof.
  intros plugin after Hf Hp.
  split.
  { unfold after. rewrite batch_ledger, Hf. simpl. unfold ledger_entry.
    by rewrite turn_text. }
  split; [apply encode_length_ge|].
  split; [apply encode_length_eq|].
  intros g e sz Hg. unfold after. rewrite batch_ledger, batch_bundle, Hg. simpl.
  unfold ledger_entry, final_entry.
  destruct (turn lib (viteImageCompress userOptions) g e) as [|n|a] eqn:Ht.
  - done.
  - intros [= <-]. revert Ht. unfold turn, encode_turn.
    destruct e as [|source]; [done|].
    destruct (filter _ g); [|done].
    destruct (read_source source) as [[buf isString]|] eqn:Hr; [|done].
    intros Hn. exists buf, (Asset source), buf. simpl. rewrite Hr. simpl.
    assert (n = byteLength buf) as ->
      by (repeat case_match; simplify_eq/=; done).
    done.
  - apply turn_suspended_inv in Ht
      as (buf & kind & opts & outcome & -> & _ & _ & _ & _ & _ & _ & ->).
    unfold finish. simpl. destruct outcome as [c|msg]; simpl.
    + destruct (byteLength c <? byteLength buf); simpl; intros [= <-].
      * by exists buf, (Asset (SrcBytes c)), c.
      * by exists buf, (Asset (SrcBytes buf)), buf.
    + intros [= <-]. by exists buf, (Asset (SrcBytes buf)), buf.
Qed.

(** The one code unit U+00E9 of t.png counts for two bytes. *)
Lemma C10_witness :
  let after := (batch Examples.halving no_options Examples.scenario).2 in
  processedFiles after !! "t.png" = Some (mkSizes 2 2)
  /\ (length [233%N] <= length (Utf8.encode [233%N]))%nat.
Proof.
  assert (Hf : Examples.scenario !! "t.png" = Some (Asset (SrcString [233%N])))
    by (vm_compute; reflexivity).
  assert (Hp : filter (viteImageCompress no_options) "t.png" = true)
    by (vm_compute; reflexivity).
  pose proof (C10_sizes_are_byte_lengths Examples.halving _ _ _ _ Hf Hp)
    as (H1 & H2 & _).
  exact (conj H1 H2).
Defined.

(** * Further properties of the hook *)

(** ** Codec calls and log events *)

(** X1. The codec is used exactly once per eligible asset and for nothing
    else: [sharp(input)] for every byte asset that passes the filter and is
    not an SVG, with the asset's original bytes; an encoding call for those
    of them that have a raster extension whose merged options have keys,
    provided [sharp(input)] did not throw, with exactly those options.  No
    call is made twice. *)
Theorem X1_codec_is_used_once_per_eligible_asset
        lib userOptions (b : gmap string OutputEntry) :
  let plugin := viteImageCompress userOptions in
  let after := (batch lib userOptions b).2 in
  NoDup (codec after)
  /\ (forall f buf,
        NewSharp f buf ∈ codec after <->
        b !! f = Some (Asset (SrcBytes buf)) /\ filter plugin f = true
        /\ ext_of f <> ".svg")
  /\ (forall f kind opts buf,
        ToBuffer f kind opts buf ∈ codec after <->
        b !! f = Some (Asset (SrcBytes buf)) /\ filter plugin f = true
        /\ construct lib f buf = None
        /\ switch (ext_of f) = Some kind
        /\ formatOptions (options plugin) kind = Some opts /\ opts <> []).
Proof.
  intros plugin after. split; [apply batch_codec_NoDup|]. split.
  - intros f buf. unfold after. rewrite batch_codec_elem. split.
    + intros (g & e & He & Hin). unfold calls_of, encode_calls in Hin.
      destruct e as [|[|buf'|]]; try by apply elem_of_nil in Hin.
      destruct (filter _ g) eqn:Hp; simpl in Hin; [|by apply elem_of_nil in Hin].
      destruct (String.eqb (ext_of g) ".svg") eqn:Hext; simpl in Hin;
        [by apply elem_of_nil in Hin|].
      apply String.eqb_neq in Hext.
      apply elem_of_cons in Hin as [[= <- <-]|Hin]; [done|].
      repeat case_match; members Hin.
    + intros (He & Hp & Hext%eqb_svg_false).
      exists f, (Asset (SrcBytes buf)). split; [done|].
      unfold calls_of, encode_calls. fold plugin. rewrite Hp, Hext. simpl.
      apply list_elem_of_here.
  - intros f kind opts buf. unfold after. rewrite batch_codec_elem. split.
    + intros (g & e & He & Hin). unfold calls_of, encode_calls in Hin.
      destruct e as [|[|buf'|]]; try by apply elem_of_nil in Hin.
      destruct (filter _ g) eqn:Hp; simpl in Hin; [|by apply elem_of_nil in Hin].
      destruct (String.eqb (ext_of g) ".svg") eqn:Hext; simpl in Hin;
        [by apply elem_of_nil in Hin|].
      apply elem_of_cons in Hin as [[=]|Hin].
      repeat case_match; members Hin. repeat split; try done.
    + intros (He & Hp & Hc & Hk & Ho & Hne).
      exists f, (Asset (SrcBytes buf)). split; [done|].
      unfold calls_of, encode_calls. fold plugin.
      rewrite Hp, (switch_not_svg _ _ Hk), Hc, Hk, Ho. simpl.
      destruct opts; [done|]. apply list_elem_of_further, list_elem_of_here.
Qed.

(** X2. An error reaches the logger for a file exactly when the codec
    failed on it: the file is a byte asset that passes the filter, is not
    an SVG, and [sharp(input)] threw, the encoding call threw or its promise
    was rejected; the message logged is the codec's. *)
Theorem X2_errors_are_logged_exactly_for_codec_failures
        lib userOptions (b : gmap string OutputEntry) f message :
  let plugin := viteImageCompress userOptions in
  let after := (batch lib userOptions b).2 in
  ErrorProcessing f message ∈ logger after <->
  exists buf, b !! f = Some (Asset (SrcBytes buf)) /\ filter plugin f = true
              /\ ext_of f <> ".svg"
              /\ codec_failure lib plugin f buf = Some message.
Proof.
  intros plugin after. subst plugin after. rewrite batch_logger_entry. split.
  - intros (g & e & He & Hin). unfold entry_logs, task_logs in Hin.
    destruct e as [|[s|buf|]]; try by apply elem_of_nil in Hin.
    + repeat case_match; members Hin.
    + destruct (filter _ g) eqn:Hp; [|by apply elem_of_nil in Hin].
      destruct (String.eqb (ext_of g) ".svg") eqn:Hext.
      { repeat case_match; members Hin. }
      apply String.eqb_neq in Hext.
      repeat case_match; members Hin; exists buf; repeat split; try done;
        unfold codec_failure;
        repeat (match goal with H : ?x = _ |- context [?x] => rewrite H end);
        done.
    + repeat case_match; members Hin.
  - intros (buf & He & Hp & Hext%eqb_svg_false & Hfail).
    exists f, (Asset (SrcBytes buf)). split; [done|].
    unfold entry_logs, task_logs. rewrite Hp, Hext.
    unfold codec_failure in Hfail.
    repeat case_match; simplify_eq; apply list_elem_of_here.
Qed.

Ltac bools :=
  repeat match goal with
         | H : (_ <? _) = true |- _ => apply Z.ltb_lt in H
         | H : (_ <? _) = false |- _ => apply Z.ltb_ge in H
         | H : (_ >? _) = true |- _ => apply Z.gtb_lt in H
         | H : (_ >? _) = false |- _ => rewrite Z.gtb_ltb in H
         | H : negb _ = true |- _ => apply negb_true_iff in H
         | H : negb _ = false |- _ => apply negb_false_iff in H
         end.

(** X3. With [log: false] nothing is printed through [logger.info]: what
    reaches the logger during the batch are warnings and errors only. *)
Theorem X3_log_off_leaves_warnings_and_errors
        lib userOptions (b : gmap string OutputEntry) :
  let plugin := viteImageCompress userOptions in
  let after := (batch lib userOptions b).2 in
  log_on (options plugin) = false ->
  Forall (fun ev => is_info ev = false) (logger after).
Proof.
  intros plugin after Hlog. subst plugin after. apply Forall_forall.
  intros ev (g & e & He & Hin)%batch_logger_entry.
  unfold entry_logs, task_logs in Hin. rewrite Hlog in Hin. simpl in Hin.
  destruct e as [|[s|buf|]]; repeat case_match; members Hin; done.
Qed.

(** With [log: false] the scenario bundle yields the warning for the text
    under t.png and nothing else. *)
Lemma X3_witness :
  Forall (fun ev => is_info ev = false)
         (logger (batch Examples.halving log_off Examples.scenario).2).
Proof.
  apply (X3_log_off_leaves_warnings_and_errors
           Examples.halving log_off Examples.scenario).
  vm_compute. reflexivity.
Defined.

Lemma turn_same_settings lib p p' f e :
  (forall g, filter p g = filter p' g) ->
  (forall k, formatOptions (options p) k = formatOptions (options p') k) ->
  turn lib p f e = turn lib p' f e.
Proof.
  intros Hf Ho. unfold turn, encode_turn. rewrite Hf.
  destruct e as [|source]; [done|].
  destruct (filter p' f); [|done].
  destruct (read_source source) as [[buf isString]|]; [|done].
  destruct (String.eqb (ext_of f) ".svg"); [done|].
  destruct isString; [done|].
  destruct (construct lib f buf); [done|].
  destruct (switch (ext_of f)) as [kind|]; [|done].
  by rewrite Ho.
Qed.

(** X4. The [log] option is cosmetic: whatever the caller puts under it,
    the batch completes alike and leaves the same ledger, the same bundle
    and the same codec calls, and the same warnings and errors reach the
    logger. *)
Theorem X4_log_option_is_cosmetic
        lib userOptions (b : gmap string OutputEntry) l l' :
  let run := batch lib (with_log userOptions l) b in
  let run' := batch lib (with_log userOptions l') b in
  run.1 = run'.1
  /\ processedFiles run.2 = processedFiles run'.2
  /\ bundle run.2 = bundle run'.2
  /\ codec run.2 = codec run'.2
  /\ (forall ev, is_info ev = false -> ev ∈ logger run.2 <-> ev ∈ logger run'.2).
Proof.
  intros run run'. subst run run'.
  set (p := viteImageCompress (with_log userOptions l)).
  set (p' := viteImageCompress (with_log userOptions l')).
  assert (Hf : forall g, filter p g = filter p' g) by done.
  assert (Ho : forall k, formatOptions (options p) k = formatOptions (options p') k)
    by done.
  assert (Ht : forall f e, turn lib p f e = turn lib p' f e)
    by (intros; by apply turn_same_settings).
  repeat split.
  - by rewrite !batch_completes.
  - apply map_eq. intros g. rewrite !batch_ledger. fold p p'.
    destruct (b !! g) as [e|]; simpl; [|done].
    unfold ledger_entry. by rewrite Ht.
  - apply map_eq. intros g. rewrite !batch_bundle. fold p p'.
    destruct (b !! g) as [e|]; simpl; [|done].
    unfold final_entry. by rewrite Ht.
  - rewrite !batch_codec_eq. fold p p'. apply list_bind_ext; [|done].
    intros g. destruct (b !! g) as [e|]; simpl; [|done].
    unfold calls_of, encode_calls. rewrite Hf.
    by destruct e as [|[|buf|]].
  - intros (g & e & He & Hin)%batch_logger_entry. apply batch_logger_entry.
    exists g, e. split; [done|]. fold p p' in Hin |- *.
    unfold entry_logs, task_logs in *. rewrite <- Hf.
    destruct e as [|[s|buf|]]; try done.
    + repeat case_match; members Hin; try done; apply list_elem_of_here.
    + destruct (filter p g); [|done].
      destruct (String.eqb (ext_of g) ".svg").
      { repeat case_match; members Hin; done. }
      destruct (construct lib g buf); [done|].
      destruct (switch (ext_of g)) as [kind|].
      * rewrite <- Ho.
        repeat case_match; members Hin; try done; apply list_elem_of_here.
      * repeat case_match; members Hin; done.
  - intros (g & e & He & Hin)%batch_logger_entry. apply batch_logger_entry.
    exists g, e. split; [done|]. fold p p' in Hin |- *.
    unfold entry_logs, task_logs in *. rewrite Hf.
    destruct e as [|[s|buf|]]; try done.
    + repeat case_match; members Hin; try done; apply list_elem_of_here.
    + destruct (filter p' g); [|done].
      destruct (String.eqb (ext_of g) ".svg").
      { repeat case_match; members Hin; done. }
      destruct (construct lib g buf); [done|].
      destruct (switch (ext_of g)) as [kind|].
      * rewrite Ho.
        repeat case_match; members Hin; try done; apply list_elem_of_here.
      * repeat case_match; members Hin; done.
Qed.

(** X5. The two warnings are given exactly where the loop skips on the
    content's type: "unknown source" for an asset that passes the filter
    with content that is neither text nor bytes, "string that is not an
    SVG" for an asset that passes the filter with text under an extension
    other than .svg; neither depends on the [log] option. *)
Theorem X5_warnings_are_given_exactly_for_skipped_content
        lib userOptions (b : gmap string OutputEntry) f :
  let plugin := viteImageCompress userOptions in
  let after := (batch lib userOptions b).2 in
  (WarnUnknownSource f ∈ logger after <->
     b !! f = Some (Asset SrcOther) /\ filter plugin f = true)
  /\ (WarnStringNotSvg f ∈ logger after <->
        exists s, b !! f = Some (Asset (SrcString s)) /\ filter plugin f = true
                  /\ ext_of f <> ".svg").
Proof.
  intros plugin after. subst plugin after. rewrite !batch_logger_entry. split.
  - split.
    + intros (g & e & He & Hin). unfold entry_logs, task_logs in Hin.
      destruct e as [|[s|buf|]]; repeat case_match; members Hin; done.
    + intros [He Hp]. exists f, (Asset SrcOther). split; [done|].
      unfold entry_logs. rewrite Hp. apply list_elem_of_here.
  - split.
    + intros (g & e & He & Hin). unfold entry_logs, task_logs in Hin.
      destruct e as [|[s|buf|]]; repeat case_match; members Hin.
      exists s. repeat split; try done. by apply String.eqb_neq.
    + intros (s & He & Hp & Hext%eqb_svg_false).
      exists f, (Asset (SrcString s)). split; [done|].
      unfold entry_logs. rewrite Hp, Hext. apply list_elem_of_here.
Qed.

(** X6. The two notices about an encoding that did not help: "not smaller"
    is printed exactly when logging is on and the codec resolved with a
    buffer strictly longer than the original, "unchanged" exactly when
    logging is on and it resolved with a buffer of the same length; the
    sizes printed are those byte lengths.  An asset whose options have no
    key never gets either. *)
Theorem X6_no_improvement_notices
        lib userOptions (b : gmap string OutputEntry) f newSize originalSize :
  let plugin := viteImageCompress userOptions in
  let after := (batch lib userOptions b).2 in
  let encoded c buf :=
    exists kind opts,
      b !! f = Some (Asset (SrcBytes buf)) /\ filter plugin f = true
      /\ construct lib f buf = None /\ switch (ext_of f) = Some kind
      /\ formatOptions (options plugin) kind = Some opts /\ opts <> []
      /\ toBuffer lib f kind opts buf = Promised (Resolves c) in
  (InfoNotSmaller f newSize originalSize ∈ logger after <->
     log_on (options plugin) = true
     /\ exists c buf, encoded c buf /\ newSize = byteLength c
                      /\ originalSize = byteLength buf
                      /\ byteLength buf < byteLength c)
  /\ (InfoUnchanged f originalSize ∈ logger after <->
        log_on (options plugin) = true
        /\ exists c buf, encoded c buf /\ originalSize = byteLength buf
                         /\ byteLength c = byteLength buf).
Proof.
  intros plugin after encoded. subst plugin after encoded.
  rewrite !batch_logger_entry. split.
  - split.
    + intros (g & e & He & Hin). unfold entry_logs, task_logs in Hin.
      destruct e as [|[s|buf|]]; repeat case_match; members Hin; bools.
      split; [done|]. eexists _, buf.
      split; [eexists _, _; repeat split; eauto|].
      repeat split; try done; lia.
    + intros (Hlog & c & buf & (kind & opts & He & Hp & Hc & Hk & Ho & Hne & Ht)
              & -> & -> & Hlt).
      exists f, (Asset (SrcBytes buf)). split; [done|].
      unfold entry_logs, task_logs.
      rewrite Hp, (switch_not_svg _ _ Hk), Hc, Hk, Ho, Hlog. simpl.
      destruct opts; [done|]. rewrite Ht.
      destruct (Z.ltb_spec (byteLength c) (byteLength buf)); [lia|].
      destruct (Z.gtb_spec (byteLength c) (byteLength buf)); [|lia].
      apply list_elem_of_here.
  - split.
    + intros (g & e & He & Hin). unfold entry_logs, task_logs in Hin.
      destruct e as [|[s|buf|]]; repeat case_match; members Hin; bools.
      split; [done|]. eexists _, buf.
      split; [eexists _, _; repeat split; eauto|].
      repeat split; try done; lia.
    + intros (Hlog & c & buf & (kind & opts & He & Hp & Hc & Hk & Ho & Hne & Ht)
              & -> & Heq).
      exists f, (Asset (SrcBytes buf)). split; [done|].
      unfold entry_logs, task_logs.
      rewrite Hp, (switch_not_svg _ _ Hk), Hc, Hk, Ho, Hlog. simpl.
      destruct opts; [done|]. rewrite Ht.
      destruct (Z.ltb_spec (byteLength c) (byteLength buf)); [lia|].
      destruct (Z.gtb_spec (byteLength c) (byteLength buf)); [lia|].
      apply list_elem_of_here.
Qed.

(** ** The ledger over several bundles *)

(** X7. The ledger belongs to the plugin, not to a bundle: when the hook
    runs in a state that already holds entries (a build with several
    outputs), the ledger it leaves is the one a fresh plugin would build for
    this bundle laid over the old one, so old entries stay unless their key
    is recorded again; the bundle is changed as by a fresh plugin, and the
    hook completes. *)
Theorem X7_ledger_accumulates_over_bundles lib userOptions w :
  let plugin := viteImageCompress userOptions in
  let after := (generateBundle lib plugin w).2 in
  let alone := (batch lib userOptions (bundle w)).2 in
  (generateBundle lib plugin w).1 = Normal tt
  /\ processedFiles after = processedFiles alone ∪ processedFiles w
  /\ bundle after = bundle alone
  /\ dom (processedFiles w) ⊆ dom (processedFiles after).
Proof.
  intros plugin after alone. subst plugin after alone.
  assert (Hl : processedFiles (generateBundle lib (viteImageCompress userOptions) w).2
               = processedFiles (batch lib userOptions (bundle w)).2
                 ∪ processedFiles w).
  { apply map_eq. intros g.
    rewrite generateBundle_ledger, lookup_union, batch_ledger.
    by destruct (bundle w !! g ≫= _), (processedFiles w !! g). }
  split; [apply generateBundle_completes|]. split; [exact Hl|]. split.
  - apply map_eq. intros g. by rewrite generateBundle_bundle, batch_bundle.
  - rewrite Hl, dom_union_L. set_solver.
Qed.

(** X8. No run of the hook can make the report show a size that grew: if
    every entry of the ledger has finalSize <= originalSize before the hook
    runs, so has every entry after it, and no row of the report takes the
    branch for a negative saving. *)
Theorem X8_sound_ledger_is_kept lib userOptions w :
  let after := (generateBundle lib (viteImageCompress userOptions) w).2 in
  sound_ledger (processedFiles w) ->
  sound_ledger (processedFiles after)
  /\ Forall (fun row => row.2 <> Failed) (report after).
Proof.
  intros after Hw. subst after.
  assert (Hs : sound_ledger
                 (processedFiles
                    (generateBundle lib (viteImageCompress userOptions) w).2)).
  { intros g s. rewrite generateBundle_ledger.
    destruct (bundle w !! g ≫= _) as [s'|] eqn:Hg.
    - intros [= <-].
      assert (Hb : processedFiles (batch lib userOptions (bundle w)).2 !! g = Some s')
        by (by rewrite batch_ledger).
      by destruct (batch_entry_bounds _ _ _ _ _ Hb).
    - apply Hw. }
  split; [exact Hs|].
  unfold report. apply Forall_fmap, Forall_forall.
  intros [h sz] Hin%elem_of_map_to_list. simpl.
  apply status_not_failed. by apply (Hs h).
Qed.

(** Two bundles in a row: the entries left by the first stay sound through
    the second. *)
Lemma X8_witness :
  let w1 := (batch Examples.halving no_options Examples.scenario).2 in
  let w2 := mkWorld {[ "z.png" := Asset (SrcBytes (Examples.zeros 6)) ]}
                    (processedFiles w1) (logger w1) (codec w1) in
  Forall (fun row => row.2 <> Failed)
         (report (generateBundle Examples.same_size
                                 (viteImageCompress no_options) w2).2).
Proof.
  intros w1 w2.
  refine (proj2 (X8_sound_ledger_is_kept Examples.same_size no_options w2 _)).
  apply (bool_decide_unpack _). vm_compute. reflexivity.
Defined.

(** ** The branch for other extensions *)

(** X9. A byte asset that passes the filter under an extension that is
    neither .svg nor one of .jpg .jpeg .png .webp .gif .avif takes the
    [default] branch of the switch: [sharp(input)] is built, nothing is
    encoded, the content stays, the ledger records it unchanged, and the
    "unsupported" notice is printed exactly when logging is on and
    [sharp(input)] did not throw. *)
Theorem X9_other_extensions_are_recorded_unchanged
        lib userOptions (b : gmap string OutputEntry) f buf :
  let plugin := viteImageCompress userOptions in
  let after := (batch lib userOptions b).2 in
  b !! f = Some (Asset (SrcBytes buf)) ->
  filter plugin f = true ->
  ext_of f <> ".svg" ->
  switch (ext_of f) = None ->
  processedFiles after !! f = Some (unchanged buf)
  /\ bundle after !! f = Some (Asset (SrcBytes buf))
  /\ NewSharp f buf ∈ codec after
  /\ (forall kind opts input, ToBuffer f kind opts input ∉ codec after)
  /\ (InfoUnsupported f ∈ logger after <->
      log_on (options plugin) = true /\ construct lib f buf = None).
Proof.
  intros plugin after Hf Hp Hext Hk. subst plugin after.
  assert (Ht : turn lib (viteImageCompress userOptions) f (Asset (SrcBytes buf))
               = Recorded (byteLength buf)).
  { rewrite turn_bytes by done. unfold encode_turn. rewrite Hk.
    by destruct (construct lib f buf). }
  split; [by rewrite batch_ledger, Hf; simpl; unfold ledger_entry; rewrite Ht|].
  split; [by rewrite batch_bundle, Hf; simpl; unfold final_entry; rewrite Ht|].
  split.
  { apply batch_codec_elem. exists f, (Asset (SrcBytes buf)). split; [done|].
    unfold calls_of, encode_calls. rewrite Hp, (eqb_svg_false _ Hext). simpl.
    apply list_elem_of_here. }
  split.
  { intros kind opts input (_ & _ & _ & Hk' & _)%batch_codec. congruence. }
  rewrite batch_logger_entry. split.
  - intros (g & e & He & Hin). unfold entry_logs, task_logs in Hin.
    destruct e as [|[s|buf'|]]; repeat case_match; members Hin. done.
  - intros [Hlog Hc]. exists f, (Asset (SrcBytes buf)). split; [done|].
    unfold entry_logs, task_logs.
    rewrite Hp, (eqb_svg_false _ Hext), Hc, Hk, Hlog. apply list_elem_of_here.
Qed.

(** Under the default options a file named [.png] passes the filter, has no
    extension for [path.extname], and so takes the [default] branch. *)
Lemma X9_witness :
  let b : gmap string OutputEntry :=
    {[ ".png" := Asset (SrcBytes (Examples.zeros 3)) ]} in
  let after := (batch Examples.halving no_options b).2 in
  processedFiles after !! ".png" = Some (mkSizes 3 3)
  /\ InfoUnsupported ".png" ∈ logger after.
Proof.
  intros b after.
  assert (Hf : b !! ".png" = Some (Asset (SrcBytes (Examples.zeros 3))))
    by (vm_compute; reflexivity).
  assert (Hp : filter (viteImageCompress no_options) ".png" = true)
    by (vm_compute; reflexivity).
  assert (Hext : ext_of ".png" <> ".svg") by (vm_compute; discriminate).
  assert (Hk : switch (ext_of ".png") = None) by (vm_compute; reflexivity).
  pose proof (X9_other_extensions_are_recorded_unchanged
                Examples.halving no_options b ".png" _ Hf Hp Hext Hk)
    as (H1 & _ & _ & _ & H5).
  split; [exact H1|]. apply H5. split; reflexivity.
Defined.

(** ** The order of settlement *)

(** X10. The order in which the awaited encoding promises settle changes
    no value: for any two orders the hook completes alike, [Map.get] gives
    the same entry of the ledger under every key, the bundle is the same,
    the codec is called in the same sequence, and the same events reach the
    logger.  What the order does decide is the order of the log and the
    order in which the entries enter the ledger, and with it the order of
    the rows of the report; neither is stated here. *)
Theorem X10_settling_order_changes_no_value
        lib userOptions (b : gmap string OutputEntry) instants :
  let lib' := mkSharpLib (construct lib) (toBuffer lib) instants in
  let run := batch lib userOptions b in
  let run' := batch lib' userOptions b in
  run'.1 = run.1
  /\ (forall g, processedFiles run'.2 !! g = processedFiles run.2 !! g)
  /\ (forall g, bundle run'.2 !! g = bundle run.2 !! g)
  /\ codec run'.2 = codec run.2
  /\ (forall ev, ev ∈ logger run'.2 <-> ev ∈ logger run.2).
Proof.
  intros lib' run run'. subst run run'. repeat split.
  - by rewrite !batch_completes.
  - intros g. by rewrite !batch_ledger.
  - intros g. by rewrite !batch_bundle.
  - by rewrite !batch_codec_eq.
  - by rewrite !batch_logger_entry.
  - by rewrite !batch_logger_entry.
Qed.

(** * The report of [closeBundle] *)

Section StringFacts.

Lemma append_nil_l r : "" +:+ r = r.
Proof. reflexivity. Qed.

Lemma append_cons c s r : String c s +:+ r = String c (s +:+ r).
Proof. reflexivity. Qed.

Lemma append_nil_r s : s +:+ "" = s.
Proof. induction s as [|c s IH]; [done|]. by rewrite append_cons, IH. Qed.

Lemma append_assoc s1 s2 s3 : (s1 +:+ s2) +:+ s3 = s1 +:+ (s2 +:+ s3).
Proof. induction s1 as [|c s1 IH]; [done|]. by rewrite !append_cons, IH. Qed.

Lemma length_append s1 s2 :
  String.length (s1 +:+ s2) = (String.length s1 + String.length s2)%nat.
Proof.
  induction s1 as [|c s1 IH]; [done|]. rewrite append_cons. simpl. by rewrite IH.
Qed.

Lemma length_repeat_char c n : String.length (repeat_char c n) = n.
Proof. induction n as [|n IH]; simpl; [done|by rewrite IH]. Qed.

End StringFacts.

Section ReportFacts.

Lemma foldl_sum_sizes f a (entries : list (string * Sizes)) :
  foldl (fun acc kv => acc + f kv.2) a entries = a + sum_sizes f entries.
Proof.
  revert a. induction entries as [|kv entries IH]; intros a; simpl; [lia|].
  rewrite IH. lia.
Qed.

Lemma sum_sizes_bounds (entries : list (string * Sizes)) :
  Forall (fun kv => compressedSize kv.2 <= originalSize kv.2) entries ->
  sum_sizes compressedSize entries <= sum_sizes originalSize entries
  /\ (sum_sizes originalSize entries - sum_sizes compressedSize entries <= 0 <->
      Forall (fun kv => compressedSize kv.2 = originalSize kv.2) entries).
Proof.
  induction 1 as [|kv entries Hle _ [IH1 IH2]]; simpl.
  - split; [lia|]. split; [constructor|lia].
  - split; [lia|]. split.
    + intros H. constructor; [lia|]. apply IH2. lia.
    + intros [H1 H2%IH2]%Forall_cons. lia.
Qed.

Lemma closeBundle_silent t plugin w :
  closeBundle t plugin w = [] <->
  log_on (options plugin) = false \/ processedFiles w = ∅.
Proof.
  unfold closeBundle. rewrite <- map_size_empty_iff.
  destruct (log_on (options plugin)); simpl.
  - destruct (Nat.eqb_spec (size (processedFiles w)) 0) as [E|E].
    + split; [by right|done].
    + split; [done|by intros [?|?]].
  - split; [by left|done].
Qed.

Lemma closeBundle_printed t plugin w :
  closeBundle t plugin w <> [] ->
  let entries := map_to_list (processedFiles w) in
  let tableData := (fun kv => table_row t kv.1 kv.2) <$> entries in
  let widths := colWidths tableData in
  let o := sum_sizes originalSize entries in
  let c := sum_sizes compressedSize entries in
  closeBundle t plugin w
  = PrintedHeading
      :: (PrintedLine <$> headerLine widths :: separatorLine widths
                          :: (rowLine widths <$> tableData))
      ++ [PrintedSummary o c (if o - c >? 0 then Some (o - c) else None)].
Proof.
  unfold closeBundle.
  destruct (negb (log_on (options plugin)) || (size (processedFiles w) =? 0)%nat);
    [done|].
  intros _. simpl. rewrite !foldl_sum_sizes, !Z.add_0_l.
  do 3 f_equal. f_equal. apply list_fmap_compose.
Qed.

End ReportFacts.

Section BatchReport.

Variable lib : Sharp.
Variable userOptions : ImageCompressOptions.
Variable b : gmap string OutputEntry.

Let plugin := viteImageCompress userOptions.
Let after := (batch lib userOptions b).2.

Lemma batch_entry_cases g s :
  processedFiles after !! g = Some s ->
  (compressedSize s < originalSize s /\ bundle after !! g <> b !! g)
  \/ (compressedSize s = originalSize s /\ bundle after !! g = b !! g).
Proof.
  unfold after. rewrite batch_ledger, batch_bundle.
  destruct (b !! g) as [e|]; simpl; [|done].
  unfold ledger_entry, final_entry. intros Hs.
  destruct (turn lib (viteImageCompress userOptions) g e) as [|n|a] eqn:Ht.
  - done.
  - injection Hs as <-. by right.
  - apply turn_suspended_inv in Ht
      as (buf & kind & opts & outcome & -> & _ & _ & _ & _ & _ & _ & ->).
    revert Hs. unfold finish. simpl.
    destruct outcome as [c|msg]; simpl.
    + destruct (Z.ltb_spec (byteLength c) (byteLength buf)); simpl;
        intros [= <-]; simpl.
      * left. split; [done|]. intros [= E]. rewrite E in *. lia.
      * by right.
    + intros [= <-]. by right.
Qed.

Lemma batch_entry_svg g s :
  processedFiles after !! g = Some s -> ext_of g = ".svg" ->
  compressedSize s = originalSize s.
Proof.
  unfold after. rewrite batch_ledger.
  destruct (b !! g) as [e|]; simpl; [|done].
  unfold ledger_entry. intros Hs Hsvg.
  destruct (turn lib (viteImageCompress userOptions) g e) as [|n|a] eqn:Ht.
  - done.
  - by injection Hs as <-.
  - apply turn_suspended_inv in Ht
      as (buf & kind & opts & outcome & -> & _ & Hkind & _).
    by rewrite Hsvg in Hkind.
Qed.

Lemma batch_ledger_empty :
  processedFiles after = ∅ <->
  forall f e, b !! f = Some e -> candidate plugin f e && readable e = false.
Proof.
  split.
  - intros He f e Hb. apply not_true_iff_false. intros [Hc Hr]%andb_true_iff.
    assert (is_Some (processedFiles after !! f)) as [s Hs].
    { apply batch_ledger_is_Some. eauto. }
    by rewrite He in Hs.
  - intros H. apply map_empty. intros g.
    destruct (processedFiles after !! g) as [s|] eqn:Hs; [|done].
    assert (is_Some (processedFiles after !! g)) as Hsome by (by exists s).
    apply batch_ledger_is_Some in Hsome as (e & Hb & Hc & Hr).
    apply H in Hb. unfold plugin in Hb. by rewrite Hc, Hr in Hb.
Qed.

Lemma batch_untouched_iff :
  bundle after = b <->
  forall g s, processedFiles after !! g = Some s ->
              compressedSize s = originalSize s.
Proof.
  split.
  - intros Hb g s Hs.
    destruct (batch_entry_cases _ _ Hs) as [[_ Hne]|[? _]]; [|done].
    by rewrite Hb in Hne.
  - intros H. apply map_eq. intros g.
    destruct (processedFiles after !! g) as [s|] eqn:Hs.
    + specialize (H g s Hs).
      destruct (batch_entry_cases _ _ Hs) as [[? _]|[_ ?]]; [lia|done].
    + revert Hs. unfold after. rewrite batch_ledger, batch_bundle.
      destruct (b !! g) as [e|]; simpl; [|done].
      unfold ledger_entry, final_entry.
      by destruct (turn lib (viteImageCompress userOptions) g e).
Qed.

Lemma batch_sound_ledger : sound_ledger (processedFiles after).
Proof. intros g s Hs. by apply batch_entry_bounds in Hs as [? _]. Qed.

End BatchReport.

(** X11. After the first bundle of a plugin, [closeBundle] stays silent
    exactly when logging is off or no asset of the bundle is a readable
    candidate; otherwise it prints the heading, the two lines that head the
    table, one line for each entry of the ledger, and the summary, in this
    order. *)
Theorem X11_report_is_printed_for_a_nonempty_ledger
        lib userOptions (b : gmap string OutputEntry) t :
  let plugin := viteImageCompress userOptions in
  let after := (batch lib userOptions b).2 in
  (closeBundle t plugin after = [] <->
   log_on (options plugin) = false
   \/ forall f e, b !! f = Some e -> candidate plugin f e && readable e = false)
  /\ (closeBundle t plugin after <> [] ->
      exists lines o c s,
        closeBundle t plugin after
        = PrintedHeading :: (PrintedLine <$> lines) ++ [PrintedSummary o c s]
        /\ length lines = (2 + size (processedFiles after))%nat).
Proof.
  intros plugin after. split.
  - rewrite closeBundle_silent. unfold after, plugin.
    by rewrite batch_ledger_empty.
  - intros Hne. rewrite (closeBundle_printed _ _ _ Hne).
    eexists _, _, _, _. split; [reflexivity|].
    simpl. rewrite !length_fmap. f_equal. f_equal. apply length_map_to_list.
Qed.

(** X12. The summary printed after the first bundle of a plugin is
    truthful: its totals are the sums over the ledger, the compressed total
    never exceeds the original one, and a saving is announced exactly when
    the hook replaced the content of some asset of the bundle; the saving
    announced is the positive difference of the totals. *)
Theorem X12_summary_announces_a_saving_iff_content_was_replaced
        lib userOptions (b : gmap string OutputEntry) t o c s :
  let plugin := viteImageCompress userOptions in
  let after := (batch lib userOptions b).2 in
  PrintedSummary o c s ∈ closeBundle t plugin after ->
  o = sum_sizes originalSize (map_to_list (processedFiles after))
  /\ c = sum_sizes compressedSize (map_to_list (processedFiles after))
  /\ c <= o
  /\ (s = None <-> bundle after = b)
  /\ (forall d, s = Some d -> d = o - c /\ 0 < d).
Proof.
  intros plugin after Hin.
  assert (closeBundle t plugin after <> []) as Hne.
  { intros E. rewrite E in Hin. by apply elem_of_nil in Hin. }
  rewrite (closeBundle_printed _ _ _ Hne) in Hin.
  apply elem_of_cons in Hin as [?|Hin]; [done|].
  apply elem_of_app in Hin as [Hin|Hin].
  { by apply list_elem_of_fmap in Hin as (? & ? & _). }
  apply elem_of_cons in Hin as [[= -> -> ->]|Hin]; [|by apply elem_of_nil in Hin].
  set (entries := map_to_list (processedFiles after)).
  assert (Forall (fun kv => compressedSize kv.2 <= originalSize kv.2) entries)
    as Hsound.
  { apply Forall_forall. intros [g sz] Hg%elem_of_map_to_list. simpl.
    by apply batch_entry_bounds in Hg as [? _]. }
  apply sum_sizes_bounds in Hsound as [Hle Hzero].
  split; [done|]. split; [done|]. split; [done|]. split.
  - unfold after. rewrite batch_untouched_iff.
    destruct (Z.gtb_spec (sum_sizes originalSize entries
                          - sum_sizes compressedSize entries) 0) as [Hgt|Hngt].
    + split; [done|]. intros H. exfalso.
      assert (Forall (fun kv : string * Sizes =>
                        compressedSize kv.2 = originalSize kv.2) entries) as Hall.
      { apply Forall_forall. intros [g sz] Hg%elem_of_map_to_list. simpl. eauto. }
      apply Hzero in Hall. lia.
    + split; [|done]. intros _ g sz Hg.
      apply Hzero in Hngt. rewrite Forall_forall in Hngt.
      by apply (Hngt (g, sz)), elem_of_map_to_list.
  - intros d. destruct (Z.gtb_spec (sum_sizes originalSize entries
                          - sum_sizes compressedSize entries) 0); [|done].
    intros [= <-]. split; [done|lia].
Qed.

Lemma X12_witness :
  let after := (batch Examples.halving no_options Examples.scenario).2 in
  PrintedSummary 36 26 (Some 10)
    ∈ closeBundle test_texts (viteImageCompress no_options) after
  /\ bundle after <> Examples.scenario.
Proof.
  intros after.
  assert (Hin : PrintedSummary 36 26 (Some 10)
                  ∈ closeBundle test_texts (viteImageCompress no_options) after).
  { subst after. vm_compute.
    repeat (first [apply list_elem_of_here | apply list_elem_of_further]). }
  pose proof (X12_summary_announces_a_saving_iff_content_was_replaced
                Examples.halving no_options Examples.scenario test_texts
                36 26 (Some 10) Hin) as (_ & _ & _ & H & _).
  split; [exact Hin|]. intros E. apply H in E. discriminate E.
Defined.

(** X13. The row of the table for an entry written by the first bundle of
    a plugin: the status is the skipped one exactly for an [.svg] name, the
    compressed one exactly when the hook replaced the content of the asset,
    never the error one; and the savings cell is a dash exactly when the
    content was left as it was. *)
Theorem X13_row_status_tells_what_happened
        lib userOptions (b : gmap string OutputEntry) t f s :
  let after := (batch lib userOptions b).2 in
  processedFiles after !! f = Some s ->
  (status f s = Skipped <-> ext_of f = ".svg")
  /\ (status f s = Compressed <-> bundle after !! f <> b !! f)
  /\ status f s <> Failed
  /\ (col_savings (table_row t f s) = "-" <-> bundle after !! f = b !! f)
  /\ col_status (table_row t f s) = label t (status f s).
Proof.
  intros after Hs. subst after.
  enough ((status f s = Skipped <-> ext_of f = ".svg")
          /\ (status f s = Compressed <->
              bundle (batch lib userOptions b).2 !! f <> b !! f)
          /\ status f s <> Failed
          /\ (col_savings (table_row t f s) = "-" <->
              bundle (batch lib userOptions b).2 !! f = b !! f))
    as (H1 & H2 & H3 & H4) by (by split_and!).
  pose proof (batch_entry_svg _ _ _ _ _ Hs) as Hsvg.
  unfold status, table_row. simpl.
  destruct (batch_entry_cases _ _ _ _ _ Hs) as [[Hlt Hne]|[Heq Hsame]].
  - destruct (String.eqb_spec (ext_of f) ".svg") as [E|E];
      [specialize (Hsvg E); lia|].
    destruct (Z.gtb_spec (originalSize s - compressedSize s) 0); [|lia].
    repeat split; try done.
    intros Hdash. apply (f_equal String.length) in Hdash.
    rewrite !length_append in Hdash. simpl in Hdash. lia.
  - destruct (Z.gtb_spec (originalSize s - compressedSize s) 0); [lia|].
    destruct (Z.eqb_spec (originalSize s - compressedSize s) 0); [|lia].
    destruct (String.eqb_spec (ext_of f) ".svg") as [E|E];
      repeat split; try done.
Qed.

Lemma X13_witness :
  let after := (batch Examples.halving no_options Examples.scenario).2 in
  status "a.jpg" (mkSizes 10 5) = Compressed
  /\ bundle after !! "a.jpg" <> Examples.scenario !! "a.jpg".
Proof.
  intros after.
  assert (Hs : processedFiles after !! "a.jpg" = Some (mkSizes 10 5))
    by (vm_compute; reflexivity).
  pose proof (X13_row_status_tells_what_happened
                Examples.halving no_options Examples.scenario test_texts
                "a.jpg" (mkSizes 10 5) Hs) as (_ & H & _).
  split; [reflexivity|]. apply H. reflexivity.
Defined.

(** ** The alignment of the table *)

Section AnsiFacts.

Lemma strip_from_cons st held c rest :
  Ansi.strip_from st held (String c rest)
  = let afresh :=
        if Ascii.eqb c Ansi.esc
        then Ansi.strip_from Ansi.AfterEsc (String c EmptyString) rest
        else String c (Ansi.strip_from Ansi.Outside EmptyString rest) in
    match st with
    | Ansi.Outside => afresh
    | Ansi.AfterEsc =>
      if Ascii.eqb c "[" then Ansi.strip_from Ansi.InParams (held +:+ String c EmptyString) rest
      else held +:+ afresh
    | Ansi.InParams =>
      if Ansi.is_param c then Ansi.strip_from Ansi.InParams (held +:+ String c EmptyString) rest
      else if Ascii.eqb c "m" then Ansi.strip_from Ansi.Outside EmptyString rest
      else held +:+ afresh
    end.
Proof. reflexivity. Qed.

Lemma strip_space rest : Ansi.strip (String " " rest) = String " " (Ansi.strip rest).
Proof. reflexivity. Qed.

(** What follows a value in a line of the table is nothing or starts with
    a space; either ends an escape sequence that the value left open. *)
Lemma strip_from_app st held v r :
  r = "" \/ (exists r', r = String " " r') ->
  Ansi.strip_from st held (v +:+ r) = Ansi.strip_from st held v +:+ Ansi.strip r.
Proof.
  intros Hr. revert st held. induction v as [|c v IH]; intros st held.
  - rewrite append_nil_l. destruct Hr as [->|[r' ->]].
    + unfold Ansi.strip. simpl. by rewrite append_nil_r.
    + rewrite strip_space, strip_from_cons. by destruct st.
  - rewrite append_cons, !strip_from_cons. cbv zeta.
    destruct st, (Ascii.eqb c Ansi.esc), (Ascii.eqb c "["), (Ansi.is_param c),
      (Ascii.eqb c "m");
      rewrite ?IH, ?append_cons, ?append_assoc; reflexivity.
Qed.

Lemma strip_app v r :
  r = "" \/ (exists r', r = String " " r') ->
  Ansi.strip (v +:+ r) = Ansi.strip v +:+ Ansi.strip r.
Proof. apply strip_from_app. Qed.

Lemma strip_spaces n : Ansi.strip (repeat_char " " n) = repeat_char " " n.
Proof. induction n as [|n IH]; [done|]. simpl. by rewrite strip_space, IH. Qed.

Lemma strip_dashes n : Ansi.strip (repeat_char "-" n) = repeat_char "-" n.
Proof.
  induction n as [|n IH]; [done|]. simpl.
  change (Ansi.strip (String "-" (repeat_char "-" n)))
    with (String "-" (Ansi.strip (repeat_char "-" n))).
  by rewrite IH.
Qed.

Lemma spaces_settled n r :
  r = "" \/ (exists r', r = String " " r') ->
  repeat_char " " n +:+ r = "" \/ exists r', repeat_char " " n +:+ r = String " " r'.
Proof. destruct n as [|n]; [done|]. intros _. right. by eexists. Qed.

Lemma strip_join_cols parts :
  Ansi.strip (join_cols parts) = join_cols (Ansi.strip <$> parts).
Proof.
  induction parts as [|p [|q rest] IH]; [done|done|].
  change (join_cols (p :: q :: rest)) with (p +:+ " | " +:+ join_cols (q :: rest)).
  rewrite strip_app by (right; by eexists).
  change (Ansi.strip (" | " +:+ join_cols (q :: rest)))
    with (" | " +:+ Ansi.strip (join_cols (q :: rest))).
  by rewrite IH.
Qed.

(** A value padded to a width it does not exceed shows with that width. *)
Lemma padded_length value width :
  (displayLength value <= width)%nat ->
  String.length
    (Ansi.strip (value +:+ repeat_char " " (width - displayLength value)))
  = width.
Proof.
  intros Hle. rewrite strip_app.
  - rewrite strip_spaces, length_append, length_repeat_char.
    unfold displayLength in *. lia.
  - rewrite <- (append_nil_r (repeat_char _ _)). by apply spaces_settled; left.
Qed.

Lemma colWidth_ge_header tableData j header :
  (String.length header.1 <= colWidth tableData j header)%nat.
Proof.
  unfold colWidth. induction tableData as [|row tableData IH];
    [|rewrite fmap_cons]; cbn [fmap list_fmap foldr]; lia.
Qed.

Lemma colWidth_ge_cell tableData j header row :
  row ∈ tableData ->
  (displayLength (nth j (cells row) "") <= colWidth tableData j header)%nat.
Proof.
  unfold colWidth. induction 1 as [row tableData|row row' tableData _ IH];
    rewrite fmap_cons; cbn [foldr]; lia.
Qed.

Lemma printed_lines_eq lines o c s :
  printed_lines (PrintedHeading :: (PrintedLine <$> lines) ++ [PrintedSummary o c s])
  = lines.
Proof.
  unfold printed_lines.
  change (omap ?f (PrintedHeading :: ?l)) with (omap f l).
  rewrite omap_app.
  change (omap _ [PrintedSummary o c s]) with (@nil string).
  rewrite app_nil_r.
  induction lines as [|l lines IH]; [done|].
  rewrite fmap_cons. change (omap ?f (PrintedLine l :: ?k)) with (l :: omap f k).
  by rewrite IH.
Qed.

End AnsiFacts.

(** X14. The table is aligned whatever colour codes the cells carry: once
    the codes are taken out, every line that [closeBundle] prints through
    [console.log] is the indent of two spaces followed by five cells
    separated by [" | "], and the cell of each column has the width
    computed for that column, the same in every line. *)
Theorem X14_table_lines_are_aligned t plugin w line :
  line ∈ printed_lines (closeBundle t plugin w) ->
  exists shown,
    Ansi.strip line = "  " +:+ join_cols shown
    /\ String.length <$> shown
       = colWidths ((fun kv => table_row t kv.1 kv.2)
                      <$> map_to_list (processedFiles w)).
Proof.
  intros Hin.
  assert (closeBundle t plugin w <> []) as Hne.
  { intros E. rewrite E in Hin. by apply elem_of_nil in Hin. }
  rewrite (closeBundle_printed _ _ _ Hne), printed_lines_eq in Hin.
  set (tableData := (fun kv => table_row t kv.1 kv.2)
                      <$> map_to_list (processedFiles w)) in *.
  assert (forall parts,
             Ansi.strip ("  " +:+ join_cols parts)
             = "  " +:+ join_cols (Ansi.strip <$> parts)) as Hline.
  { intros parts. rewrite <- strip_join_cols. reflexivity. }
  apply elem_of_cons in Hin as [->|Hin]; [|apply elem_of_cons in Hin as [->|Hin]].
  - eexists. split; [apply Hline|].
    unfold colWidths, headers. cbn [imap zip_with fmap list_fmap compose fst snd].
    repeat f_equal;
      match goal with
      | |- String.length (Ansi.strip (padEnd ?h (colWidth ?d ?j ?hd))) = _ =>
        change (padEnd h (colWidth d j hd))
          with (h +:+ repeat_char " " (colWidth d j hd - displayLength h));
          apply padded_length; exact (colWidth_ge_header d j hd)
      end.
  - eexists. split; [apply Hline|].
    unfold colWidths, headers. cbn [imap zip_with fmap list_fmap compose fst snd].
    by rewrite !strip_dashes, !length_repeat_char.
  - apply list_elem_of_fmap in Hin as (row & -> & Hrow).
    eexists. split; [apply Hline|].
    unfold colWidths, headers, cells.
    cbn [imap zip_with fmap list_fmap compose fst snd].
    repeat f_equal;
      match goal with
      | |- context [colWidth ?d ?j ?hd] =>
        apply padded_length; exact (colWidth_ge_cell d j hd row Hrow)
      end.
Qed.

Lemma X14_witness :
  let after := (batch Examples.halving no_options Examples.scenario).2 in
  let line := rowLine [15; 15; 17; 20; 15]%nat
                      (table_row test_texts "a.jpg" (mkSizes 10 5)) in
  line ∈ printed_lines (closeBundle test_texts (viteImageCompress no_options) after)
  /\ exists shown,
      Ansi.strip line = "  " +:+ join_cols shown
      /\ String.length <$> shown = [15; 15; 17; 20; 15]%nat.
Proof.
  intros after line.
  assert (Hin : line ∈ printed_lines
                         (closeBundle test_texts (viteImageCompress no_options) after)).
  { subst after line. vm_compute.
    repeat (first [apply list_elem_of_here | apply list_elem_of_further]). }
  split; [exact Hin|].
  destruct (X14_table_lines_are_aligned
              test_texts (viteImageCompress no_options) after line Hin)
    as (shown & H1 & H2).
  exists shown. split; [exact H1|]. rewrite H2. vm_compute. reflexivity.
Defined.


(** * File names and their extensions *)

Section PathFacts.

Lemma scan_S path i st :
  Path.scan path (S i) st
  = match String.get i path with
    | None => st
    | Some code =>
      if Ascii.eqb code "/" then
        if negb (Path.matchedSlash st) then
          Path.mkScan (Path.startDot st) (Z.of_nat i + 1) (Path.endAt st)
                      (Path.matchedSlash st) (Path.preDotState st)
        else Path.scan path i st
      else
        let st1 :=
          if Path.endAt st =? -1 then
            Path.mkScan (Path.startDot st) (Path.startPart st) (Z.of_nat i + 1)
                        false (Path.preDotState st)
          else st in
        let st2 :=
          if Ascii.eqb code "." then
            if Path.startDot st1 =? -1 then
              Path.mkScan (Z.of_nat i) (Path.startPart st1) (Path.endAt st1)
                          (Path.matchedSlash st1) (Path.preDotState st1)
            else if negb (Path.preDotState st1 =? 1) then
              Path.mkScan (Path.startDot st1) (Path.startPart st1) (Path.endAt st1)
                          (Path.matchedSlash st1) 1
            else st1
          else if negb (Path.startDot st1 =? -1) then
            Path.mkScan (Path.startDot st1) (Path.startPart st1) (Path.endAt st1)
                        (Path.matchedSlash st1) (-1)
          else st1 in
        Path.scan path i st2
    end.
Proof. reflexivity. Qed.

Lemma get_lt s n : (n < String.length s)%nat -> is_Some (String.get n s).
Proof.
  revert n. induction s as [|c s IH]; intros n Hn; simpl in *; [lia|].
  destruct n as [|n]; [by eexists|]. apply IH. lia.
Qed.

Lemma get_app_r s1 s2 n :
  String.get (String.length s1 + n) (s1 +:+ s2) = String.get n s2.
Proof. rewrite Nat.add_comm. symmetry. apply String.append_correct2. Qed.

Lemma plain_get e j x :
  plain e = true -> String.get j e = Some x ->
  Ascii.eqb x "." = false /\ Ascii.eqb x "/" = false.
Proof.
  revert j. induction e as [|c e IH]; intros j He Hj; simpl in *; [done|].
  apply andb_true_iff in He as [[H1 H2]%andb_true_iff H3].
  destruct j as [|j]; [|by eauto].
  injection Hj as <-. by split; apply negb_true_iff.
Qed.

Lemma scan_step_plain path i st x :
  String.get i path = Some x ->
  Ascii.eqb x "/" = false -> Ascii.eqb x "." = false ->
  Path.endAt st <> -1 -> Path.startDot st = -1 ->
  Path.scan path (S i) st = Path.scan path i st.
Proof.
  intros Hx Hs Hd He%Z.eqb_neq Hsd. rewrite scan_S, Hx, Hs, Hd. cbv zeta.
  by rewrite He, Hsd.
Qed.

Lemma scan_step_end path i x :
  String.get i path = Some x ->
  Ascii.eqb x "/" = false -> Ascii.eqb x "." = false ->
  Path.scan path (S i) Path.scan0
  = Path.scan path i (Path.mkScan (-1) 0 (Z.of_nat i + 1) false 0).
Proof. intros Hx Hs Hd. by rewrite scan_S, Hx, Hs, Hd. Qed.

Lemma scan_step_dot path i st :
  String.get i path = Some "."%char ->
  Path.endAt st <> -1 -> Path.startDot st = -1 ->
  Path.scan path (S i) st
  = Path.scan path i (Path.mkScan (Z.of_nat i) (Path.startPart st) (Path.endAt st)
                                  (Path.matchedSlash st) (Path.preDotState st)).
Proof.
  intros Hx He%Z.eqb_neq Hsd. rewrite scan_S, Hx. cbv zeta.
  change (Ascii.eqb "." "/") with false. change (Ascii.eqb "." ".") with true.
  cbv iota. by rewrite He, Hsd.
Qed.

Lemma scan_step_end_dot path i :
  String.get i path = Some "."%char ->
  Path.scan path (S i) Path.scan0
  = Path.scan path i (Path.mkScan (Z.of_nat i) 0 (Z.of_nat i + 1) false 0).
Proof. intros Hx. by rewrite scan_S, Hx. Qed.

(** The characters of a plain extension leave the scan as it is once the
    end of the name has been marked. *)
Lemma scan_plain pre e j n E :
  plain e = true -> (j <= String.length e)%nat -> E <> -1 ->
  n = (String.length pre + 1 + j)%nat ->
  let path := pre +:+ String "." e in
  let st := Path.mkScan (-1) 0 E false 0 in
  Path.scan path n st = Path.scan path (S (String.length pre)) st.
Proof.
  intros He Hj HE Hn path st. revert n Hn.
  induction j as [|j IH]; intros n ->.
  { f_equal. lia. }
  replace (String.length pre + 1 + S j)%nat
    with (S (String.length pre + S j))%nat by lia.
  destruct (get_lt e j) as [x Hx]; [lia|].
  destruct (plain_get _ _ _ He Hx) as [Hdot Hslash].
  rewrite (scan_step_plain _ _ _ x); try done.
  - apply IH; lia.
  - unfold path. by rewrite get_app_r.
Qed.

(** The scan of [pre ++ "." ++ e] up to and including the dot. *)
Lemma scan_to_dot pre e :
  plain e = true ->
  let path := pre +:+ String "." e in
  Path.scan path (String.length path) Path.scan0
  = Path.scan path (String.length pre) (at_dot pre e).
Proof.
  intros He path.
  assert (String.get (String.length pre) path = Some "."%char) as Hdot.
  { unfold path. rewrite <- (Nat.add_0_r (String.length pre)) at 1.
    by rewrite get_app_r. }
  assert (String.length path = S (String.length pre + String.length e)) as Hlen.
  { unfold path. rewrite length_append. simpl. lia. }
  rewrite Hlen. subst path.
  destruct e as [|x e'] eqn:Ee.
  - rewrite Nat.add_0_r, scan_step_end_dot by done. unfold at_dot.
    do 2 f_equal. simpl. lia.
  - rewrite <- Ee in *.
    assert (String.length e = S (String.length e')) as Hlen' by (by rewrite Ee).
    destruct (get_lt e (String.length e')) as [y Hy]; [lia|].
    destruct (plain_get _ _ _ He Hy) as [Hd Hs].
    rewrite (scan_step_end _ _ y); try done.
    + rewrite (scan_plain pre e (String.length e')); try done; try lia.
      rewrite scan_step_dot; try done; try (simpl; lia).
      unfold at_dot. simpl. do 2 f_equal. lia.
    + rewrite Hlen'. by rewrite get_app_r.
Qed.

(** Once the dot and a character before it have been seen, the rest of the
    scan moves neither the dot nor the end, and leaves [preDotState] at 1
    or -1. *)
Lemma scan_settled path n st :
  Path.startDot st <> -1 -> Path.endAt st <> -1 ->
  Path.matchedSlash st = false ->
  Path.preDotState st = 1 \/ Path.preDotState st = -1 ->
  let st' := Path.scan path n st in
  Path.startDot st' = Path.startDot st /\ Path.endAt st' = Path.endAt st
  /\ (Path.preDotState st' = 1 \/ Path.preDotState st' = -1).
Proof.
  revert st. induction n as [|n IH]; intros st Hsd He Hm Hp; [done|].
  destruct st as [sd sp en ms pd]. simpl in Hsd, He, Hm, Hp. subst ms.
  cbv zeta. rewrite scan_S. destruct (String.get n path) as [x|]; [|done].
  apply Z.eqb_neq in Hsd as Hsd', He as He'. simpl. rewrite He'. simpl.
  rewrite Hsd'. simpl.
  destruct (Ascii.eqb x "/"); [done|].
  destruct (Ascii.eqb x ".").
  - destruct (negb (pd =? 1)).
    + pose proof (IH (Path.mkScan sd sp en false 1)) as IH'.
      simpl in IH'. apply IH'; auto.
    + pose proof (IH (Path.mkScan sd sp en false pd)) as IH'.
      simpl in IH'. apply IH'; auto.
  - pose proof (IH (Path.mkScan sd sp en false (-1))) as IH'.
    simpl in IH'. apply IH'; auto.
Qed.

Lemma substring_app_r s1 s2 :
  String.substring (String.length s1) (String.length s2) (s1 +:+ s2) = s2.
Proof.
  induction s1 as [|c s1 IH]; [|by rewrite append_cons].
  rewrite append_nil_l. simpl String.length.
  induction s2 as [|c s2 IH]; [done|]. simpl. by rewrite IH.
Qed.

(** [extname] of a name whose last dot has a character other than a slash
    before it and a plain, non-empty part after it. *)
Lemma extname_regular base c e :
  Ascii.eqb c "/" = false -> plain e = true -> e <> "" ->
  Path.extname (base +:+ String c (String "." e)) = String "." e.
Proof.
  intros Hc He Hne.
  set (pre := base +:+ String c "").
  assert (base +:+ String c (String "." e) = pre +:+ String "." e) as Hpath.
  { unfold pre. by rewrite append_assoc. }
  assert (String.length pre = S (String.length base)) as Hpre.
  { unfold pre. rewrite length_append. simpl. lia. }
  assert (String.length e <> 0%nat) as Hlen by (by destruct e).
  rewrite Hpath.
  set (st2 := Path.mkScan (Z.of_nat (String.length pre)) 0
                          (Z.of_nat (String.length pre + 1 + String.length e))
                          false (if Ascii.eqb c "." then 1 else -1)).
  assert (Path.scan (pre +:+ String "." e)
                    (String.length (pre +:+ String "." e)) Path.scan0
          = Path.scan (pre +:+ String "." e) (String.length base) st2) as Hscan.
  { rewrite scan_to_dot by done. rewrite Hpre at 1. rewrite scan_S.
    assert (String.get (String.length base) (pre +:+ String "." e) = Some c) as ->.
    { rewrite <- Hpath, <- (Nat.add_0_r (String.length base)) at 1.
      by rewrite get_app_r. }
    rewrite Hc. cbv zeta. f_equal. unfold st2, at_dot. simpl.
    destruct (Z.eqb_spec (Z.of_nat (String.length pre + 1 + String.length e)) (-1));
      [lia|]. simpl.
    destruct (Z.eqb_spec (Z.of_nat (String.length pre)) (-1)); [lia|]. simpl.
    by destruct (Ascii.eqb c "."). }
  destruct (scan_settled (pre +:+ String "." e) (String.length base) st2)
    as (Hsd & Hend & Hp).
  { simpl. lia. }
  { simpl. lia. }
  { done. }
  { simpl. destruct (Ascii.eqb c "."); auto. }
  rewrite <- Hscan in Hsd, Hend, Hp. simpl in Hsd, Hend.
  set (st := Path.scan (pre +:+ String "." e)
                       (String.length (pre +:+ String "." e)) Path.scan0) in *.
  assert (Path.scan (pre +:+ String "." e)
                    (String.length (pre +:+ String "." e)) Path.scan0 = st)
    as Hst by done.
  unfold Path.extname. rewrite Hst. cbv zeta. rewrite Hsd, Hend.
  replace (Z.of_nat (String.length pre) =? -1) with false
    by (symmetry; apply Z.eqb_neq; lia).
  replace (Z.of_nat (String.length pre + 1 + String.length e) =? -1) with false
    by (symmetry; apply Z.eqb_neq; lia).
  replace (Z.of_nat (String.length pre)
           =? Z.of_nat (String.length pre + 1 + String.length e) - 1) with false
    by (symmetry; apply Z.eqb_neq; lia).
  rewrite andb_false_r, !orb_false_r, orb_false_l.
  replace (Path.preDotState _ =? 0) with false
    by (symmetry; apply Z.eqb_neq; lia).
  rewrite Nat2Z.id.
  replace (Z.to_nat _) with (String.length (String "." e)) by (simpl; lia).
  apply substring_app_r.
Qed.

(** [extname] of a name that starts, or whose last part starts, with its
    only dot. *)
Lemma extname_hidden dir e :
  dir = "" \/ (exists d, dir = d +:+ "/") -> plain e = true ->
  Path.extname (dir +:+ String "." e) = "".
Proof.
  intros Hdir He. unfold Path.extname. rewrite scan_to_dot by done.
  destruct Hdir as [->|[d ->]]; [done|].
  rewrite length_append. simpl String.length.
  replace (String.length d + 1)%nat with (S (String.length d)) by lia.
  rewrite scan_S.
  assert (String.get (String.length d) ((d +:+ "/") +:+ String "." e)
          = Some "/"%char) as ->.
  { rewrite append_assoc, <- (Nat.add_0_r (String.length d)) at 1.
    by rewrite get_app_r. }
  unfold at_dot. simpl. by rewrite orb_true_r.
Qed.

Lemma toLowerCase_app a b :
  Path.toLowerCase (a +:+ b) = Path.toLowerCase a +:+ Path.toLowerCase b.
Proof.
  induction a as [|c a IH]; [done|]. rewrite append_cons. simpl.
  by rewrite IH, append_cons.
Qed.

Lemma lower_char_dot c : Ascii.eqb (Path.lower_char c) "." = Ascii.eqb c ".".
Proof. by destruct c as [[] [] [] [] [] [] [] []]. Qed.

Lemma lower_char_slash c : Ascii.eqb (Path.lower_char c) "/" = Ascii.eqb c "/".
Proof. by destruct c as [[] [] [] [] [] [] [] []]. Qed.

Lemma plain_toLowerCase e : plain (Path.toLowerCase e) = plain e.
Proof.
  induction e as [|c e IH]; [done|]. simpl.
  by rewrite lower_char_dot, lower_char_slash, IH.
Qed.

Lemma plain_app_dot a b : plain (a +:+ String "." b) = false.
Proof.
  induction a as [|c a IH]; [done|]. rewrite append_cons. simpl.
  rewrite IH. by rewrite andb_false_r.
Qed.

(** The part after the last dot is determined by the string. *)
Lemma last_dot_inj a p b q :
  a +:+ String "." p = b +:+ String "." q ->
  plain p = true -> plain q = true -> p = q.
Proof.
  revert b. induction a as [|c a IH]; intros [|c' b] E Hp Hq.
  - by injection E.
  - rewrite append_nil_l, append_cons in E. injection E as _ ->.
    by rewrite plain_app_dot in Hp.
  - rewrite append_nil_l, append_cons in E. injection E as _ <-.
    by rewrite plain_app_dot in Hq.
  - rewrite !append_cons in E. injection E as _ E. eauto.
Qed.

Lemma substring_split s m :
  (m <= String.length s)%nat ->
  s = String.substring 0 m s +:+ String.substring m (String.length s - m) s.
Proof.
  revert m. induction s as [|c s IH]; intros m Hm; simpl in Hm.
  - by destruct m.
  - destruct m as [|m].
    + rewrite Nat.sub_0_r. simpl String.substring at 1. rewrite append_nil_l.
      symmetry. apply (substring_app_r "" (String c s)).
    + simpl. rewrite append_cons. f_equal. apply IH. lia.
Qed.

Lemma endsWith_app pre suffix : Path.endsWith (pre +:+ suffix) suffix = true.
Proof.
  unfold Path.endsWith. rewrite length_append.
  apply andb_true_iff. split; [apply Nat.leb_le; lia|].
  apply String.eqb_eq.
  replace (String.length pre + String.length suffix - String.length suffix)%nat
    with (String.length pre) by lia.
  apply substring_app_r.
Qed.

Lemma endsWith_inv s suffix :
  Path.endsWith s suffix = true -> exists pre, s = pre +:+ suffix.
Proof.
  unfold Path.endsWith. intros [Hle%Nat.leb_le Heq%String.eqb_eq]%andb_true_iff.
  exists (String.substring 0 (String.length s - String.length suffix) s).
  pose proof (substring_split s (String.length s - String.length suffix)) as H.
  replace (String.length s - (String.length s - String.length suffix))%nat
    with (String.length suffix) in H by lia.
  rewrite Heq in H. apply H. lia.
Qed.

(** On a name that ends in a dot and a plain part, an extension of the
    default pattern is matched exactly when the plain part is that
    extension, letters in any case. *)
Lemma endsWith_extension pre e x :
  plain e = true -> plain x = true ->
  Path.endsWith (Path.toLowerCase (pre +:+ String "." e)) (String "." x)
  = String.eqb (Path.toLowerCase e) x.
Proof.
  intros He Hx. rewrite toLowerCase_app.
  change (Path.toLowerCase (String "." e)) with (String "." (Path.toLowerCase e)).
  destruct (String.eqb_spec (Path.toLowerCase e) x) as [->|Hne].
  - apply endsWith_app.
  - apply not_true_iff_false. intros [pre' E]%endsWith_inv.
    apply last_dot_inj in E; [done| |done]. by rewrite plain_toLowerCase.
Qed.

Lemma eqb_dot l x : String.eqb (String "." l) (String "." x) = String.eqb l x.
Proof. reflexivity. Qed.

Lemma default_include_regular pre e :
  plain e = true ->
  test default_include (pre +:+ String "." e)
  = existsb (String.eqb (Path.toLowerCase e))
            ["png"; "jpg"; "jpeg"; "gif"; "svg"; "webp"; "avif"].
Proof.
  intros He. unfold default_include. cbn [test existsb].
  by rewrite !endsWith_extension.
Qed.

End PathFacts.

(** X15. The extension the hook goes by is what follows the last dot of
    the name, in lower case, whatever directories and dots come before:
    for a name whose last dot has a character other than a slash before it
    and, after it, a non-empty part without dot or slash made of code units
    below 128, [ext] is the dot followed by that part with its letters A-Z
    lowered. *)
Theorem X15_extension_is_the_lowered_last_part base c e :
  Ascii.eqb c "/" = false -> plain e = true -> seven_bit e = true -> e <> "" ->
  ext_of (base +:+ String c (String "." e)) = String "." (Path.toLowerCase e).
Proof.
  intros Hc He _ Hne. unfold ext_of. by rewrite extname_regular.
Qed.

Lemma X15_witness : ext_of "img/photo.JPG" = ".jpg".
Proof.
  apply (X15_extension_is_the_lowered_last_part "img/phot" "o" "JPG");
    [reflexivity|reflexivity|reflexivity|discriminate].
Defined.

(** X16. Without an include pattern of the caller's, the filter and the
    switch agree on such names: a name passes the filter exactly when it is
    not excluded and its extension is [.svg] or has a [case] in the switch.
    So the [default] branch of the switch is not reached by these names. *)
Theorem X16_default_include_agrees_with_the_switch userOptions base c e :
  include userOptions = Missing ->
  Ascii.eqb c "/" = false -> plain e = true -> e <> "" ->
  let fileName := base +:+ String c (String "." e) in
  filter (viteImageCompress userOptions) fileName
  = negb (matches (effective_exclude userOptions) fileName)
    && (String.eqb (ext_of fileName) ".svg" || has_case (ext_of fileName)).
Proof.
  intros Hinc Hc He Hne fileName.
  rewrite filter_eq. unfold effective_include. rewrite Hinc.
  destruct (matches (effective_exclude userOptions) fileName); [done|].
  rewrite bool_decide_eq_false_2 by done.
  unfold fileName, ext_of. rewrite extname_regular by done.
  replace (base +:+ String c (String "." e))
    with ((base +:+ String c "") +:+ String "." e) by (by rewrite append_assoc).
  unfold matches. cbn [existsb]. rewrite default_include_regular by done.
  unfold has_case, switch. cbn [existsb negb andb].
  change (Path.toLowerCase (String "." e)) with (String "." (Path.toLowerCase e)).
  rewrite !eqb_dot.
  repeat match goal with
         | |- context [String.eqb (Path.toLowerCase e) ?x] =>
           destruct (String.eqb (Path.toLowerCase e) x)
         end; reflexivity.
Qed.

Lemma X16_witness :
  filter (viteImageCompress no_options) "img/photo.JPG" = true.
Proof.
  assert (H : "JPG" <> "") by discriminate.
  refine (eq_trans (X16_default_include_agrees_with_the_switch
                      no_options "img/phot" "o" "JPG"
                      eq_refl eq_refl eq_refl H) _).
  vm_compute. reflexivity.
Defined.

(** X17. A name that starts with its only dot, at the top or in a
    directory ([.png], [img/.png]), has no extension for the hook: with
    [ext] empty no case of the switch applies, so the hook of a new plugin
    neither encodes nor replaces the content under such a name, although
    the default include pattern matches the name when the part after the
    dot is one of its extensions. *)
Theorem X17_hidden_names_are_never_encoded
        lib userOptions (b : gmap string OutputEntry) dir e :
  dir = "" \/ (exists d, dir = d +:+ "/") -> plain e = true ->
  let fileName := dir +:+ String "." e in
  let after := (batch lib userOptions b).2 in
  ext_of fileName = ""
  /\ bundle after !! fileName = b !! fileName
  /\ (forall kind opts input, ToBuffer fileName kind opts input ∉ codec after)
  /\ test default_include fileName
     = existsb (String.eqb (Path.toLowerCase e))
               ["png"; "jpg"; "jpeg"; "gif"; "svg"; "webp"; "avif"].
Proof.
  intros Hdir He fileName after.
  assert (ext_of fileName = "") as Hext.
  { unfold ext_of, fileName. by rewrite extname_hidden. }
  split; [done|]. split; [|split].
  - unfold after. rewrite batch_bundle.
    destruct (b !! fileName) as [entry|]; [|done]. simpl. f_equal.
    unfold final_entry.
    destruct (turn lib (viteImageCompress userOptions) fileName entry)
      as [|n|a] eqn:Ht; try done.
    apply turn_suspended_inv in Ht
      as (buf & kind & opts & outcome & _ & _ & Hkind & _).
    by rewrite Hext in Hkind.
  - intros kind opts input Hin. apply batch_codec in Hin.
    destruct Hin as (_ & _ & _ & Hkind & _). by rewrite Hext in Hkind.
  - by apply default_include_regular.
Qed.

Lemma X17_witness :
  let b : gmap string OutputEntry :=
    {[ "img/.png" := Asset (SrcBytes (Examples.zeros 4)) ]} in
  bundle (batch Examples.halving no_options b).2 !! "img/.png" = b !! "img/.png"
  /\ test default_include "img/.png" = true.
Proof.
  intros b.
  assert (H1 : "img/" = "" \/ (exists d, "img/" = d +:+ "/")).
  { right. exists "img". reflexivity. }
  assert (H2 : plain "png" = true) by reflexivity.
  pose proof (X17_hidden_names_are_never_encoded
                Examples.halving no_options b "img/" "png" H1 H2)
    as (_ & H & _ & H').
  split; [exact H|]. exact (eq_trans H' eq_refl).
Defined.

(** * The project's build *)

Lemma turn_same_settings_at lib p p' f e :
  filter p f = filter p' f ->
  (forall k, formatOptions (options p) k = formatOptions (options p') k) ->
  turn lib p f e = turn lib p' f e.
Proof.
  intros Hf Ho. unfold turn, encode_turn. rewrite Hf.
  destruct e as [|source]; [done|].
  destruct (filter p' f); [|done].
  destruct (read_source source) as [[buf isString]|]; [|done].
  destruct (String.eqb (ext_of f) ".svg"); [done|].
  destruct isString; [done|].
  destruct (construct lib f buf); [done|].
  destruct (switch (ext_of f)) as [kind|]; [|done].
  by rewrite Ho.
Qed.

Lemma project_filter g :
  filter (viteImageCompress project_options) g
  = if test build_dirs g then false
    else filter (viteImageCompress no_options) g.
Proof.
  rewrite !filter_eq.
  change (effective_exclude project_options) with [build_dirs].
  change (effective_exclude no_options) with (@nil Matcher).
  change (effective_include project_options) with [default_include].
  change (effective_include no_options) with [default_include].
  unfold matches. cbn [existsb]. rewrite orb_false_r.
  by destruct (test build_dirs g).
Qed.

Lemma project_formatOptions k :
  formatOptions (options (viteImageCompress project_options)) k
  = formatOptions (options (viteImageCompress no_options)) k.
Proof. by destruct k. Qed.

(** X18. The build configured in [vite.config.ts]: an asset whose name
    contains [node_modules] or [dist] anywhere is left alone, with no
    ledger entry and no codec call; every other asset gets the ledger entry
    and the content it gets from the plugin called without options, the
    [sharpOptions] of the configuration being the default ones. *)
Theorem X18_project_build_leaves_build_directories_alone
        lib (b : gmap string OutputEntry) g :
  let after := (batch lib project_options b).2 in
  let default_after := (batch lib no_options b).2 in
  (forall k, formatOptions (options (viteImageCompress project_options)) k
             = formatOptions defaultOptions k)
  /\ if test build_dirs g
     then processedFiles after !! g = None
          /\ bundle after !! g = b !! g
          /\ (forall c, c ∈ codec after -> file_of c <> g)
     else processedFiles after !! g = processedFiles default_after !! g
          /\ bundle after !! g = bundle default_after !! g.
Proof.
  intros after default_after. split; [by intros []|].
  unfold after, default_after. rewrite !batch_ledger, !batch_bundle.
  pose proof (project_filter g) as Hf.
  destruct (test build_dirs g) eqn:Hg.
  - assert (forall e, turn lib (viteImageCompress project_options) g e = Passed)
      as Hturn.
    { intros e. unfold turn. rewrite Hf. by destruct e. }
    split; [|split].
    + destruct (b !! g) as [e|]; [|done]. simpl.
      unfold ledger_entry. by rewrite Hturn.
    + destruct (b !! g) as [e|]; [|done]. simpl.
      unfold final_entry. by rewrite Hturn.
    + intros c Hc%batch_codec <-.
      destruct c as [f input|f kind opts input]; simpl in *.
      * destruct Hc as (_ & Hp & _). by rewrite Hf in Hp.
      * destruct Hc as (_ & Hp & _). by rewrite Hf in Hp.
  - assert (forall e, turn lib (viteImageCompress project_options) g e
                      = turn lib (viteImageCompress no_options) g e) as Hturn.
    { intros e. apply turn_same_settings_at; [done|apply project_formatOptions]. }
    split.
    + destruct (b !! g) as [e|]; [|done]. simpl.
      unfold ledger_entry. by rewrite Hturn.
    + destruct (b !! g) as [e|]; [|done]. simpl.
      unfold final_entry. by rewrite Hturn.
Qed.
